(** * LawPro Fast Converter: correction review, pattern ranking, routing, credits

    A shallow embedding of the parts of the converter that the specification's
    properties talk about:

    - [Review]: the correction-review session of the renderer
      (src/src/preload.js, [correctionState], [handleCorrectionDecision],
      [confirmAllCorrections], [saveCorrectionReview]);
    - [PatternStore]: the [error_patterns] table, its unique index and the
      [pattern_effectiveness_ranking] view (src/server/supabase_schema.sql);
    - [Classifier]: [_analyze_pdf] and the routing table of the design
      document (src/unnamed/part_001);
    - [Credits]: [getPythonCommand] and the [check-credits] IPC handler
      (src/src/main.js);
    - [ReviewSession], [Conversion], [Tour]: loading and editing review
      candidates, the review and conversion logs, the guided tour
      (src/src/preload.js);
    - [Handlers]: the other credit handlers, the Upstage key handlers and
      [collect-corrections] (src/src/main.js);
    - [Schema]: the sample rows and the [daily_conversion_stats] view
      (src/server/supabase_schema.sql);
    - [WorkerPool]: [MAX_WORKERS] (src/unnamed/part_001).

    JavaScript strings are modelled by [string]; one [ascii] stands for one
    code unit, which is exact for the ASCII markers the code inspects
    (['edited:'], ['.html']). *)

From Stdlib Require Import ZArith String Ascii List Lia Bool.
From stdpp Require Import base option list gmap sorting strings pretty.

Set Warnings "-register-all".

Open Scope string_scope.
Open Scope list_scope.

(** ** JavaScript helpers *)

Module Js.

(** [s.startsWith(p)]. *)
Definition startsWith (p s : string) : bool := String.prefix p s.

(** [s.slice(n)] for [0 <= n]. *)
Fixpoint slice (n : nat) (s : string) : string :=
  match n, s with
  | O, _ => s
  | S n', EmptyString => EmptyString
  | S n', String _ s' => slice n' s'
  end.

(** Truthiness of a value that is a string, [undefined] or [null]. *)
Definition truthy (v : option string) : bool :=
  match v with
  | Some s => negb (String.eqb s "")
  | None => false
  end.

(** [v || d] where [d] is a string. *)
Definition or_else (v : option string) (d : string) : string :=
  match v with
  | Some s => if String.eqb s "" then d else s
  | None => d
  end.

(** [s.replace(pat, rep)] with a string pattern: only the first occurrence
    is replaced. *)
Fixpoint replace (pat rep s : string) : string :=
  if String.prefix pat s then rep +:+ slice (String.length pat) s
  else match s with
       | EmptyString => EmptyString
       | String c s' => String c (replace pat rep s')
       end.

End Js.

(** ** The correction-review session (src/src/preload.js) *)

Module Review.

(** One entry of [uncertain_corrections] as read from the
    [_corrections.json] file.  A field that is absent is [None]. *)
Record Correction := {
  location : option string;
  original : option string;
  corrected : option string;
  category : option string;
  reason : option string
}.

(** An entry of [correctionState.files]. *)
Record FileInfo := {
  file : string;
  uncertain_count : Z
}.

(** [correctionState].  [decisions] is the object
    [{index: 'confirmed' | 'rejected' | 'edited:<value>'}]. *)
Record CorrectionState := {
  files : list FileInfo;
  currentFile : option string;
  corrections : list Correction;
  decisions : gmap nat string;
  totalUncertain : Z
}.

(** An element pushed on [reviewResult.decisions]:
    [{...correction, decision, edited_value}]. *)
Record ReviewEntry := {
  entry_correction : Correction;
  entry_decision : string;
  entry_edited_value : option string
}.

(** [reviewResult]. *)
Record ReviewResult := {
  rr_file : string;
  rr_reviewed_at : string;
  rr_decisions : list ReviewEntry
}.

(** An element pushed on [correctionsToLearn]. *)
Record LearnItem := {
  li_original : option string;
  li_corrected : option string;
  li_file_path : string;
  li_context : string;
  li_category : string;
  li_reason : string;
  li_decision : string
}.

(** What the renderer does to the outside world. *)
Inductive Event :=
| EAlert (msg : string)
| ERender
| ECloseModal
| EWriteJsonFile (path : string) (data : ReviewResult)
| ECollectCorrections (items : list LearnItem)
| ELogCollected (n : nat)
| EWarnCollectFailed (err : string).

(** Result of an awaited IPC call: it resolves, or rejects with an error
    whose [message] is carried. *)
Inductive Outcome :=
| Resolved
| Rejected (message : string).

(** The surroundings of [saveCorrectionReview]: the clock, the folder input
    field and the two IPC calls of [window.lawpro]. *)
Record Env := {
  now : string;
  reviewFolderPath : string;
  writeJsonFile : string -> ReviewResult -> Outcome;
  collectCorrections : list LearnItem -> Outcome
}.

Definition set_decisions (st : CorrectionState) (d : gmap nat string)
  : CorrectionState :=
  {| files := files st;
     currentFile := currentFile st;
     corrections := corrections st;
     decisions := d;
     totalUncertain := totalUncertain st |}.

(** [handleCorrectionDecision(index, decision)]: store, then re-render. *)
Definition handleCorrectionDecision (index : nat) (decision : string)
  (st : CorrectionState) : CorrectionState * list Event :=
  (set_decisions st (<[index := decision]> (decisions st)), [ERender]).

(** The body of the [forEach] of [confirmAllCorrections], run from [index]
    over the remaining candidates. *)
Fixpoint confirmAll_loop (cs : list Correction) (index : nat)
  (d : gmap nat string) : gmap nat string :=
  match cs with
  | [] => d
  | _ :: cs' =>
      confirmAll_loop cs' (S index)
        (if Js.truthy (d !! index) then d else <[index := "confirmed"]> d)
  end.

(** [confirmAllCorrections()]. *)
Definition confirmAllCorrections (st : CorrectionState)
  : CorrectionState * list Event :=
  (set_decisions st (confirmAll_loop (corrections st) 0 (decisions st)),
   [ERender]).

Definition isEdited (decision : string) : bool :=
  Js.startsWith "edited:" decision.

(** The object pushed on [reviewResult.decisions]. *)
Definition review_entry (correction : Correction) (decision : string)
  : ReviewEntry :=
  {| entry_correction := correction;
     entry_decision := if isEdited decision then "edited" else decision;
     entry_edited_value :=
       if isEdited decision then Some (Js.slice 7 decision) else None |}.

(** The object pushed on [correctionsToLearn]. *)
Definition learn_item (currentFile : string) (correction : Correction)
  (decision : string) : LearnItem :=
  {| li_original := original correction;
     li_corrected :=
       if isEdited decision then Some (Js.slice 7 decision)
       else corrected correction;
     li_file_path := currentFile;
     li_context := Js.or_else (location correction) "";
     li_category := Js.or_else (category correction) "unknown";
     li_reason := Js.or_else (reason correction) "";
     li_decision := if isEdited decision then "edited" else "confirmed" |}.

(** The [forEach] of [saveCorrectionReview], run from [index] with the two
    arrays built so far. *)
Fixpoint save_loop (currentFile : string) (d : gmap nat string)
  (cs : list Correction) (index : nat)
  (entries : list ReviewEntry) (correctionsToLearn : list LearnItem)
  : list ReviewEntry * list LearnItem :=
  match cs with
  | [] => (entries, correctionsToLearn)
  | correction :: cs' =>
      let decision := Js.or_else (d !! index) "pending" in
      let entries' := entries ++ [review_entry correction decision] in
      let learn' :=
        if String.eqb decision "confirmed" || isEdited decision
        then correctionsToLearn ++ [learn_item currentFile correction decision]
        else correctionsToLearn in
      save_loop currentFile d cs' (S index) entries' learn'
  end.

Definition reviewPath (env : Env) (currentFile : string) : string :=
  reviewFolderPath env +:+ "/Final_Reviewed_Gemini/" +:+
  Js.replace ".html" "_review.json" currentFile.

(** [saveCorrectionReview()].  The session state is not modified; the
    result is the sequence of effects. *)
Definition saveCorrectionReview (env : Env) (st : CorrectionState)
  : list Event :=
  if negb (Js.truthy (currentFile st)) then
    [EAlert "파일을 먼저 선택해주세요."]
  else
    let cf := default "" (currentFile st) in
    let '(entries, correctionsToLearn) :=
      save_loop cf (decisions st) (corrections st) 0 [] [] in
    let reviewResult :=
      {| rr_file := cf; rr_reviewed_at := now env; rr_decisions := entries |} in
    let path := reviewPath env cf in
    match writeJsonFile env path reviewResult with
    | Rejected message =>
        [EWriteJsonFile path reviewResult; EAlert ("저장 실패: " +:+ message)]
    | Resolved =>
        [EWriteJsonFile path reviewResult] ++
        (if Nat.ltb 0 (length correctionsToLearn) then
           ECollectCorrections correctionsToLearn ::
           match collectCorrections env correctionsToLearn with
           | Resolved => [ELogCollected (length correctionsToLearn)]
           | Rejected learnError => [EWarnCollectFailed learnError]
           end
         else []) ++
        [EAlert "검토 결과가 저장되었습니다."; ECloseModal]
    end.

(** The review records that reached the disk: the payloads of the
    [writeJsonFile] calls that resolved. *)
Fixpoint written (env : Env) (tr : list Event) : list (string * ReviewResult) :=
  match tr with
  | [] => []
  | EWriteJsonFile path data :: tr' =>
      match writeJsonFile env path data with
      | Resolved => (path, data) :: written env tr'
      | Rejected _ => written env tr'
      end
  | _ :: tr' => written env tr'
  end.

(** Everything handed to the learning collector. *)
Fixpoint forwarded (tr : list Event) : list LearnItem :=
  match tr with
  | [] => []
  | ECollectCorrections items :: tr' => items ++ forwarded tr'
  | _ :: tr' => forwarded tr'
  end.

(** The session has reached its terminal state once a review record has
    been handed to [writeJsonFile]. *)
Definition is_save_event (e : Event) : bool :=
  match e with
  | EWriteJsonFile _ _ => true
  | _ => false
  end.

Definition saves (tr : list Event) : bool := existsb is_save_event tr.

(** The dispositions of the specification, read off the decision object. *)
Definition undecided (d : gmap nat string) (i : nat) : Prop := d !! i = None.

Definition is_confirmed (d : gmap nat string) (i : nat) : Prop :=
  d !! i = Some "confirmed".

Definition is_rejected (d : gmap nat string) (i : nat) : Prop :=
  d !! i = Some "rejected".

Definition is_edited (d : gmap nat string) (i : nat) (v : string) : Prop :=
  d !! i = Some ("edited:" +:+ v).

Definition confirmed_or_edited (d : gmap nat string) (i : nat) : Prop :=
  is_confirmed d i \/ exists v, is_edited d i v.

(** The decision string the save loop works with. *)
Definition decision_at (d : gmap nat string) (i : nat) : string :=
  Js.or_else (d !! i) "pending".

Definition accepted (decision : string) : bool :=
  String.eqb decision "confirmed" || isEdited decision.

(** The candidates whose records are due to the learning collector, among
    the [n] candidates from index [k] on. *)
Definition forwarded_indices (d : gmap nat string) (k n : nat) : list nat :=
  filter (fun i => accepted (decision_at d i) = true) (seq k n).

(** The review record that [saveCorrectionReview] builds for the selected
    file, and the list it collects for learning. *)
Definition review_record (env : Env) (st : CorrectionState) (cf : string)
  : ReviewResult :=
  {| rr_file := cf;
     rr_reviewed_at := now env;
     rr_decisions :=
       fst (save_loop cf (decisions st) (corrections st) 0 [] []) |}.

Definition to_learn (st : CorrectionState) (cf : string) : list LearnItem :=
  snd (save_loop cf (decisions st) (corrections st) 0 [] []).

(** [item] is the learning record of candidate [i]: it carries the
    candidate's original text and, as corrected text, the proposed
    correction when the candidate was confirmed and the reviewer's value
    when it was edited. *)
Definition forwards (cf : string) (st : CorrectionState) (i : nat)
  (item : LearnItem) : Prop :=
  exists c, corrections st !! i = Some c /\
    li_original item = original c /\
    li_file_path item = cf /\
    ((is_confirmed (decisions st) i /\
      li_corrected item = corrected c /\ li_decision item = "confirmed") \/
     (exists v, is_edited (decisions st) i v /\
      li_corrected item = Some v /\ li_decision item = "edited")).

(** A session of three candidates of which two are confirmed and one is
    rejected. *)
Definition two_confirmed_one_rejected (st : CorrectionState) : Prop :=
  length (corrections st) = 3 /\
  exists r, r < 3 /\ is_rejected (decisions st) r /\
    forall i, i < 3 -> i <> r -> is_confirmed (decisions st) i.

(** The words with which a successful save is reported. *)
Definition save_reported : list Event :=
  [EAlert "검토 결과가 저장되었습니다."; ECloseModal].

(** A small session used to exercise the statements: three OCR candidates
    of one file, the first confirmed, the second rejected, the third still
    open; the record can be written, the collector is out of order. *)
Definition sample_correction (o c : string) : Correction :=
  {| location := Some "p.1";
     original := Some o;
     corrected := Some c;
     category := Some "ocr";
     reason := None |}.

Definition sample_env : Env :=
  {| now := "2024-01-01T00:00:00.000Z";
     reviewFolderPath := "/out";
     writeJsonFile := fun _ _ => Resolved;
     collectCorrections := fun _ => Rejected "collector unavailable" |}.

Definition sample_partial : CorrectionState :=
  {| files := [ {| file := "a.html"; uncertain_count := 3 |} ];
     currentFile := Some "a.html";
     corrections := [ sample_correction "Z" "a";
                      sample_correction "E" "b";
                      sample_correction "0" "c" ];
     decisions := <[0 := "confirmed"]> (<[1 := "rejected"]> ∅);
     totalUncertain := 3 |}.

Definition sample_decided : CorrectionState :=
  fst (confirmAllCorrections sample_partial).

End Review.

(** ** The pattern store (src/server/supabase_schema.sql) *)

Module PatternStore.

(** A row of [error_patterns].  [id] stands for the UUID, timestamps are
    instants on a linear clock, [last_used] is NULL ([None]) until the
    pattern is first used.  The counters and the flag are taken as set
    (the table gives each of them a DEFAULT). *)
Record error_pattern := {
  id : positive;
  original : string;
  corrected : string;
  source : string;
  category : option string;
  context : option string;
  reason : option string;
  frequency : Z;
  usage_count : Z;
  is_active : bool;
  last_used : option Z;
  created_at : Z;
  updated_at : Z
}.

(** The range of the INTEGER column type; arithmetic that leaves it raises
    "integer out of range", which is [None] here. *)
Definition int4_min : Z := -2147483648.
Definition int4_max : Z := 2147483647.

Definition in_int4 (z : Z) : Prop := (int4_min <= z <= int4_max)%Z.

Definition int4 (z : Z) : option Z :=
  if ((int4_min <=? z) && (z <=? int4_max))%Z then Some z else None.

(** [(usage_count * 2 + frequency)] of the view. *)
Definition effectiveness_score (p : error_pattern) : option Z :=
  match int4 (usage_count p * 2) with
  | Some twice => int4 (twice + frequency p)
  | None => None
  end.

(** A row of the view [pattern_effectiveness_ranking]. *)
Record ranking_row := {
  r_id : positive;
  r_original : string;
  r_corrected : string;
  r_source : string;
  r_category : option string;
  r_frequency : Z;
  r_usage_count : Z;
  r_effectiveness_score : Z;
  r_is_active : bool;
  r_last_used : option Z;
  r_created_at : Z
}.

(** The SELECT list of the view. *)
Definition select_row (p : error_pattern) : option ranking_row :=
  match effectiveness_score p with
  | Some score =>
      Some {| r_id := id p;
              r_original := original p;
              r_corrected := corrected p;
              r_source := source p;
              r_category := category p;
              r_frequency := frequency p;
              r_usage_count := usage_count p;
              r_effectiveness_score := score;
              r_is_active := is_active p;
              r_last_used := last_used p;
              r_created_at := created_at p |}
  | None => None
  end.

(** [SELECT ... FROM error_patterns WHERE is_active = true], before the
    ORDER BY. *)
Definition ranking_rows (t : list error_pattern) : option (list ranking_row) :=
  mapM select_row (filter (fun p => is_active p = true) t).

(** [ORDER BY effectiveness_score DESC]: [a] may stand before [b]. *)
Definition score_desc (a b : ranking_row) : Prop :=
  (r_effectiveness_score b <= r_effectiveness_score a)%Z.

#[global] Instance score_desc_dec : RelDecision score_desc.
Proof. intros a b. unfold score_desc. apply _. Defined.

(** The view, with one admissible order of the rows (ties are left to the
    sort). *)
Definition pattern_effectiveness_ranking (t : list error_pattern)
  : option (list ranking_row) :=
  merge_sort score_desc <$> ranking_rows t.

(** Every answer the view may give: SQL fixes the order of the rows only up
    to the ORDER BY key. *)
Definition ranking_result (t : list error_pattern) (r : list ranking_row)
  : Prop :=
  exists rows, ranking_rows t = Some rows /\ rows ≡ₚ r /\
               StronglySorted score_desc r.

(** The key of [idx_patterns_unique]. *)
Definition triple (p : error_pattern) : string * string * string :=
  (original p, corrected p, source p).

(** What [idx_patterns_unique] enforces on the table: no key occurs in two
    rows. *)
Definition idx_patterns_unique (t : list error_pattern) : Prop :=
  NoDup (triple <$> t).

Definition same_triple (o c s : string) (p : error_pattern) : bool :=
  String.eqb (original p) o && String.eqb (corrected p) c &&
  String.eqb (source p) s.

Definition conflicts (row : error_pattern) (t : list error_pattern) : bool :=
  existsb (same_triple (original row) (corrected row) (source row)) t.

(** A plain [INSERT INTO error_patterns]: the unique index rejects a row
    whose key is present ([None] is the unique_violation error). *)
Definition insert (row : error_pattern) (t : list error_pattern)
  : option (list error_pattern) :=
  if conflicts row t then None else Some (t ++ [row]).

(** [INSERT ... ON CONFLICT DO NOTHING], as used for the sample rows. *)
Definition insert_on_conflict_do_nothing (row : error_pattern)
  (t : list error_pattern) : list error_pattern :=
  if conflicts row t then t else t ++ [row].

(** A row inserted with the column defaults of the table:
    frequency 1, usage_count 0, is_active TRUE, last_used NULL,
    created_at = updated_at = NOW(). *)
Definition new_pattern (new_id : positive) (now : Z)
  (o c s : string) (cat rsn : option string) : error_pattern :=
  {| id := new_id; original := o; corrected := c; source := s;
     category := cat; context := None; reason := rsn;
     frequency := 1; usage_count := 0; is_active := true;
     last_used := None; created_at := now; updated_at := now |}.

(** The UPDATE of a duplicate submission; the trigger
    [update_error_patterns_updated_at] refreshes [updated_at]. *)
Definition bump_frequency (now : Z) (p : error_pattern) : error_pattern :=
  {| id := id p; original := original p; corrected := corrected p;
     source := source p; category := category p; context := context p;
     reason := reason p;
     frequency := frequency p + 1; usage_count := usage_count p;
     is_active := is_active p; last_used := last_used p;
     created_at := created_at p; updated_at := now |}.

(** Modelled from the spec: [record(original, corrected, source, category,
    reason)] of the Pattern Store, whose code (the server and
    engine/error_learning.py) is not among the sources.  "Inserts a new
    ErrorPattern or increments frequency on an existing (original,
    corrected, source) triple."  [new_id] is the value of
    [gen_random_uuid()] and [now] the value of [NOW()]. *)
Definition record (new_id : positive) (now : Z)
  (o c s : string) (cat rsn : option string) (t : list error_pattern)
  : list error_pattern :=
  if existsb (same_triple o c s) t
  then (fun p => if same_triple o c s p then bump_frequency now p else p) <$> t
  else t ++ [new_pattern new_id now o c s cat rsn].

(** The states of the table: it starts empty and changes by the three
    statements above. *)
Inductive reachable : list error_pattern -> Prop :=
| reach_empty : reachable []
| reach_insert row t t' :
    reachable t -> insert row t = Some t' -> reachable t'
| reach_seed row t :
    reachable t -> reachable (insert_on_conflict_do_nothing row t)
| reach_record new_id now o c s cat rsn t :
    reachable t -> reachable (record new_id now o c s cat rsn t).

(** "Most recent last-used first": a pattern that was never used counts as
    the least recent. *)
Definition more_recent (a b : option Z) : Prop :=
  match a, b with
  | Some x, Some y => (y <= x)%Z
  | Some _, None => True
  | None, Some _ => False
  | None, None => True
  end.

(** Effectiveness descending, ties by most-recent last-used. *)
Definition prompt_order (a b : ranking_row) : Prop :=
  (r_effectiveness_score b < r_effectiveness_score a)%Z \/
  (r_effectiveness_score a = r_effectiveness_score b /\
   more_recent (r_last_used a) (r_last_used b)).

#[global] Instance more_recent_dec : RelDecision more_recent.
Proof. intros [x|] [y|]; simpl; apply _. Defined.

#[global] Instance prompt_order_dec : RelDecision prompt_order.
Proof. intros a b. unfold prompt_order. apply _. Defined.

(** Modelled from the spec: [buildPrompt(source, limit)] of the Pattern
    Store, whose code is not among the sources.  "Returns the top-limit
    active patterns ranked by effectiveness = usage_count × 2 + frequency,
    descending, ties broken by most-recent last-used."  The active rows and
    their scores are those of the view. *)
Definition buildPrompt (t : list error_pattern) (src : string) (limit : nat)
  : option (list ranking_row) :=
  match ranking_rows t with
  | Some rows =>
      Some (take limit
              (merge_sort prompt_order
                 (filter (fun r => r_source r = src) rows)))
  | None => None
  end.

(** Row [a] stands ahead of row [b] in the answer [r]. *)
Definition ranks_ahead (r : list ranking_row) (a b : ranking_row) : Prop :=
  (exists i, r !! i = Some a) /\ (exists j, r !! j = Some b) /\
  forall i j, r !! i = Some a -> r !! j = Some b -> i < j.

(** A row with given counters, for examples. *)
Definition sample_pattern (n : positive) (o c : string) (uc fr : Z)
  (used : option Z) : error_pattern :=
  {| id := n; original := o; corrected := c; source := "image_pdf";
     category := Some "ocr"; context := None; reason := None;
     frequency := fr; usage_count := uc; is_active := true;
     last_used := used; created_at := 0; updated_at := 0 |}.

End PatternStore.

(** ** The PDF classifier (src/unnamed/part_001, §3.1) *)

Module Classifier.

Inductive kind :=
| spreadsheet | word_document | presentation
| digital_pdf | image_pdf | legacy_format.

Inductive route := local | remote.

(** [len(page.extract_text() or "")]: [None] is the [None] that
    pdfplumber returns for a page without text. *)
Definition page_text (page : option string) : string := default "" page.

Definition sum_nat (l : list nat) : nat := foldr Nat.add 0 l.

(** [_analyze_pdf]: whether the PDF is digital.  The argument is the
    extracted text of each page of the opened file, in order. *)
Definition _analyze_pdf (pages : list (option string)) : bool :=
  let sample_pages := take 3 pages in
  let total_text_len :=
    sum_nat ((fun page => String.length (page_text page)) <$> sample_pages) in
  Nat.ltb 100 total_text_len.

(** Modelled from the spec: the caller that turns the answer of
    [_analyze_pdf] into a kind and a route (engine/main.py) is not among
    the sources.  "If extracted length > 100 characters, classify as
    digital-pdf/local-route, else image-pdf/remote-route"; the routing
    table of the design document (§3.1.1) says the same: a digital PDF is
    handled locally, an image PDF goes to the API. *)
Definition classify_pdf (pages : list (option string)) : kind * route :=
  if _analyze_pdf pages then (digital_pdf, local) else (image_pdf, remote).

(** The text of the sampled pages, concatenated. *)
Definition sampled_text (pages : list (option string)) : string :=
  foldr String.append "" (page_text <$> take 3 pages).

(** A page whose text is [n] characters long, for examples. *)
Definition sample_page (n : nat) : option string :=
  Some (string_of_list_ascii (repeat "a"%char n)).

End Classifier.

(** ** The credit handlers of the main process (src/src/main.js) *)

Module Credits.

(** The values that travel over IPC. *)
Inductive json :=
| JNull
| JBool (b : bool)
| JNumber (z : Z)
| JString (s : string)
| JArray (items : list json)
| JObject (fields : list (string * json)).

(** [v.key] for an own property; [None] is [undefined]. *)
Fixpoint field (key : string) (fields : list (string * json)) : option json :=
  match fields with
  | [] => None
  | (k, v) :: rest => if String.eqb k key then Some v else field key rest
  end.

Definition get (key : string) (v : json) : option json :=
  match v with
  | JObject fields => field key fields
  | _ => None
  end.

(** [s.includes(sub)]. *)
Fixpoint includes (s sub : string) : bool :=
  if String.prefix sub s then true
  else match s with
       | EmptyString => false
       | String _ s' => includes s' sub
       end.

Section Main.

(** [execSync(command, {encoding: 'utf-8', stdio: 'pipe'})]: the standard
    output of the command, or [None] when it throws. *)
Variable execSync : string -> option string.

(** [spawn(command, args, ...)] observed until ['close']: the chunks
    delivered to the [stdout] ['data'] listener. *)
Variable spawn_stdout : string -> list string -> list string.

(** [JSON.parse]: [None] when it throws a SyntaxError. *)
Variable JSON_parse : string -> option json.

(** [path.join(enginePath, name)]. *)
Variable enginePath : string.
Variable path_join : string -> string -> string.

(** The [for] loop of [getPythonCommand] over the candidates left. *)
Fixpoint getPythonCommand_from (commands : list string) : option string :=
  match commands with
  | [] => None
  | cmd :: rest =>
      match execSync (cmd +:+ " --version") with
      | Some result =>
          if includes result "Python 3" then Some cmd
          else getPythonCommand_from rest
      | None => getPythonCommand_from rest
      end
  end.

(** [getPythonCommand()]; [None] is [null]. *)
Definition getPythonCommand : option string :=
  getPythonCommand_from ["python3"; "python"; "py"].

(** [output += data.toString()] over the chunks received. *)
Definition collect_output (chunks : list string) : string :=
  foldl String.append "" chunks.

(** The value the promise of [ipcMain.handle('check-credits', ...)]
    resolves with. *)
Definition check_credits (pageCount : Z) : json :=
  match getPythonCommand with
  | None =>
      JObject [("has_credits", JBool false);
               ("message", JString "Python not found")]
  | Some pythonCmd =>
      let scriptPath := path_join enginePath "credit_manager.py" in
      let output :=
        collect_output
          (spawn_stdout pythonCmd [scriptPath; "check"; pretty pageCount]) in
      match JSON_parse output with
      | Some result => result
      | None => JObject [("has_credits", JBool false)]
      end
  end.

(** A Python 3 interpreter answers to one of the three command names. *)
Definition python3_found : Prop :=
  exists cmd out, cmd ∈ ["python3"; "python"; "py"] /\
    execSync (cmd +:+ " --version") = Some out /\
    includes out "Python 3" = true.

(** What the credit manager printed for a check of [pageCount] pages. *)
Definition check_output (pythonCmd : string) (pageCount : Z) : string :=
  collect_output
    (spawn_stdout pythonCmd
       [path_join enginePath "credit_manager.py"; "check"; pretty pageCount]).

End Main.

(** *** The ledger behind [credit_manager.py] *)

(** The local account record {email, credits, total_credits_used,
    is_admin}. *)
Record CreditAccount := {
  email : string;
  credits : Z;
  total_credits_used : Z;
  is_admin : bool
}.

Record CheckResult := {
  authorized : bool;
  costEstimate : Z
}.

Section Ledger.

(** The configured allow-list of administrator identities and the fixed
    per-page unit price. *)
Variable admin_emails : list string.
Variable price_per_page : Z.

(** Modelled from the spec: the administrator test of engine/credit_manager.py,
    which is not among the sources.  "Administrator identities recognized
    by a fixed allow-list matched against the stored email." *)
Definition isAdmin (acct : CreditAccount) : bool :=
  existsb (String.eqb (email acct)) admin_emails.

(** Modelled from the spec: [checkCredits(estimatedPages) ->
    {authorized, costEstimate}] of engine/credit_manager.py, which is not
    among the sources.  "Cost model: a fixed per-page unit price;
    administrator accounts always authorize"; any other account is
    authorized when its balance covers the estimate. *)
Definition checkCredits (acct : CreditAccount) (estimatedPages : Z)
  : CheckResult :=
  let cost := (estimatedPages * price_per_page)%Z in
  {| authorized := if isAdmin acct then true else (cost <=? credits acct)%Z;
     costEstimate := cost |}.

(** Modelled from the spec: [debit(actualPages)] of
    engine/credit_manager.py, which is not among the sources.
    Administrator accounts "are never debited"; any other account pays the
    per-page price from its balance, which adds to its cumulative use. *)
Definition debit (acct : CreditAccount) (actualPages : Z) : CreditAccount :=
  if isAdmin acct then acct
  else
    let cost := (actualPages * price_per_page)%Z in
    {| email := email acct;
       credits := (credits acct - cost)%Z;
       total_credits_used := (total_credits_used acct + cost)%Z;
       is_admin := is_admin acct |}.

End Ledger.

(** An administrator and an ordinary account without balance, for
    examples. *)
Definition sample_admins : list string := ["admin@lawpro.kr"].

Definition sample_admin_account : CreditAccount :=
  {| email := "admin@lawpro.kr"; credits := 0;
     total_credits_used := 0; is_admin := true |}.

(** An environment without any Python, and one whose credit manager prints
    something that is not JSON. *)
Definition no_python (command : string) : option string := None.

Definition python3_only (command : string) : option string :=
  if String.eqb command "python3 --version" then Some "Python 3.11.4" else None.

Definition garbled_stdout (command : string) (args : list string)
  : list string := ["Traceback (most recent call last):"].

Definition strict_parse (s : string) : option json :=
  if String.eqb s "{}" then Some (JObject []) else None.

End Credits.

(** ** The rest of the review session (src/src/preload.js) *)

Module ReviewSession.
Import Review.

(** What [window.lawpro.readJsonFile] gives back: the call rejects, it
    resolves with [null] (the file is absent or cannot be parsed), or it
    resolves with an object whose [uncertain_corrections], when present,
    is the list of candidates. *)
Inductive ReadJson :=
| ReadThrows
| ReadNull
| ReadObject (uncertain_corrections : option (list Correction)).

Definition correctionsPath (folderPath filename : string) : string :=
  folderPath +:+ "/Final_Reviewed_Gemini/" +:+
  Js.replace ".html" "_corrections.json" filename.

(** [loadCorrectionsForFile(filename)]; [filename] is the value of the
    file selector, the empty string for its placeholder. *)
Definition loadCorrectionsForFile (folderPath : string)
  (readJsonFile : string -> ReadJson) (filename : string)
  (st : CorrectionState) : CorrectionState * list Event :=
  if String.eqb filename "" then
    ({| files := files st; currentFile := None; corrections := [];
        decisions := ∅; totalUncertain := totalUncertain st |}, [ERender])
  else
    match readJsonFile (correctionsPath folderPath filename) with
    | ReadObject (Some uncertain_corrections) =>
        ({| files := files st; currentFile := Some filename;
            corrections := uncertain_corrections;
            decisions := ∅; totalUncertain := totalUncertain st |},
         [ERender])
    | ReadObject None => (st, [])
    | ReadNull => (st, [])
    | ReadThrows =>
        ({| files := files st; currentFile := currentFile st;
            corrections := [];
            decisions := decisions st;
            totalUncertain := totalUncertain st |}, [ERender])
    end.

(** The value offered in the edit dialog:
    [decisions[index]?.startsWith('edited:') ? decisions[index].slice(7)
     : correction.corrected]. *)
Definition currentValue (st : CorrectionState) (index : nat)
  (correction : Correction) : option string :=
  match decisions st !! index with
  | Some d => if isEdited d then Some (Js.slice 7 d) else corrected correction
  | None => corrected correction
  end.

(** [handleCorrectionEdit(index)].  [prompt message value] is the answer
    of the dialog, [None] when it is cancelled; showing the dialog leaves
    no trace in the events. *)
Definition handleCorrectionEdit
  (prompt : string -> option string -> option string)
  (index : nat) (st : CorrectionState) : CorrectionState * list Event :=
  match corrections st !! index with
  | None => (st, [])
  | Some correction =>
      let current := currentValue st index correction in
      match prompt "수정할 값을 입력하세요:" current with
      | Some newValue =>
          if decide (Some newValue = current) then (st, [])
          else (set_decisions st
                  (<[index := "edited:" +:+ newValue]> (decisions st)),
                [ERender])
      | None => (st, [])
      end
  end.

(** [updateReviewProgress()]: the two numbers shown, reviewed and total. *)
Definition updateReviewProgress (st : CorrectionState) : nat * nat :=
  (size (decisions st), length (corrections st)).

(** A record of the review log stream, as far as [handleReviewLog] lets it
    act on the session. *)
Record ReviewLogData := {
  rl_type : string;
  rl_status : option string;
  rl_file : string;
  rl_uncertain_count : option Z
}.

(** [handleReviewLog(data)]: the new session state and whether the
    section of uncertain corrections is brought up.  The lines appended to
    the log area are not part of the state. *)
Definition handleReviewLog (data : ReviewLogData) (st : CorrectionState)
  : CorrectionState * bool :=
  if String.eqb (rl_type data) "init" then
    ({| files := []; currentFile := currentFile st;
        corrections := corrections st; decisions := decisions st;
        totalUncertain := 0 |}, false)
  else if String.eqb (rl_type data) "progress" then
    match rl_status data, rl_uncertain_count data with
    | Some status, Some n =>
        if String.eqb status "success" && negb (n =? 0)%Z then
          ({| files := files st ++
                       [ {| file := rl_file data; uncertain_count := n |} ];
              currentFile := currentFile st;
              corrections := corrections st; decisions := decisions st;
              totalUncertain := (totalUncertain st + n)%Z |}, false)
        else (st, false)
    | _, _ => (st, false)
    end
  else if String.eqb (rl_type data) "complete" then
    (st, (0 <? totalUncertain st)%Z)
  else (st, false).

(** The session after a run of log records. *)
Definition after_review_logs (evs : list ReviewLogData) (st : CorrectionState)
  : CorrectionState :=
  foldl (fun s data => fst (handleReviewLog data s)) st evs.

Definition sum_uncertain (fs : list FileInfo) : Z :=
  foldr (fun f acc => (uncertain_count f + acc)%Z) 0%Z fs.

End ReviewSession.

(** ** The conversion progress of the renderer (src/src/preload.js) *)

Module Conversion.

(** [state]. *)
Record State := {
  selectedFolder : option string;
  isConverting : bool;
  totalFiles : Z;
  processedFiles : Z;
  successCount : Z;
  failCount : Z;
  outputFolder : option string
}.

(** A record of the conversion log stream, as far as it acts on [state]. *)
Record LogData := {
  type : string;
  total : Z;
  status : option string;
  output_folder : option string
}.

(** [handleConversionLog(data)]. *)
Definition handleConversionLog (data : LogData) (st : State) : State :=
  if String.eqb (type data) "init" then
    {| selectedFolder := selectedFolder st; isConverting := isConverting st;
       totalFiles := total data;
       processedFiles := processedFiles st; successCount := successCount st;
       failCount := failCount st; outputFolder := outputFolder st |}
  else if String.eqb (type data) "progress" then
    if decide (status data = Some "success") then
      {| selectedFolder := selectedFolder st; isConverting := isConverting st;
         totalFiles := totalFiles st;
         processedFiles := (processedFiles st + 1)%Z;
         successCount := (successCount st + 1)%Z;
         failCount := failCount st; outputFolder := outputFolder st |}
    else
      {| selectedFolder := selectedFolder st; isConverting := isConverting st;
         totalFiles := totalFiles st;
         processedFiles := (processedFiles st + 1)%Z;
         successCount := successCount st;
         failCount := (failCount st + 1)%Z; outputFolder := outputFolder st |}
  else if String.eqb (type data) "complete" then
    {| selectedFolder := selectedFolder st; isConverting := isConverting st;
       totalFiles := totalFiles st;
       processedFiles := processedFiles st; successCount := successCount st;
       failCount := failCount st; outputFolder := output_folder data |}
  else st.

(** [startConversion()] up to its [await]: nothing happens without a
    selected folder, otherwise the counters are reset. *)
Definition startConversion_begin (st : State) : State :=
  if Js.truthy (selectedFolder st) then
    {| selectedFolder := selectedFolder st; isConverting := true;
       totalFiles := totalFiles st;
       processedFiles := 0; successCount := 0; failCount := 0;
       outputFolder := outputFolder st |}
  else st.

Definition after_logs (evs : list LogData) (st : State) : State :=
  foldl (fun s data => handleConversionLog data s) st evs.

Definition is_progress (data : LogData) : bool :=
  String.eqb (type data) "progress".

Definition is_success (data : LogData) : bool :=
  is_progress data && bool_decide (status data = Some "success").

(** How many records of a run satisfy [f]. *)
Definition count (f : LogData -> bool) (evs : list LogData) : Z :=
  Z.of_nat (length (List.filter f evs)).

End Conversion.

(** ** The guided tour of the renderer (src/src/preload.js) *)

Module Tour.

Record Step := {
  target : string;
  title : string;
  description : string;
  position : string
}.

Definition tourSteps : list Step :=
  [ {| target := "#navConvert"; title := "1. 문서 변환";
       description := "HWPX, DOCX, XLSX, PPTX, PDF 파일을 HTML로 변환합니다. 가장 많이 사용하는 기능입니다.";
       position := "right" |};
    {| target := "#navReview"; title := "2. AI 검수";
       description := "Claude(권장), Gemini, OpenAI를 사용하여 OCR 오류를 자동으로 검수합니다. Claude Desktop을 먼저 연결하세요.";
       position := "right" |};
    {| target := "#navEditor"; title := "3. 에디터";
       description := "변환된 HTML이나 Markdown 문서를 직접 편집할 수 있습니다. 표 편집, 텍스트 서식 등을 지원합니다.";
       position := "right" |};
    {| target := "#navSettings"; title := "4. 설정";
       description := "Python 환경 확인, Claude MCP 연결, 백업 AI API 키 관리를 합니다.";
       position := "right" |};
    {| target := "#dropZone"; title := "5. 폴더 선택";
       description := "변환할 문서가 있는 폴더를 여기에 드래그하거나 클릭하여 선택합니다.";
       position := "top" |};
    {| target := "#startConvert"; title := "6. 변환 시작";
       description := "폴더를 선택한 후 이 버튼을 클릭하면 문서 변환이 시작됩니다.";
       position := "top" |};
    {| target := "#creditBalance"; title := "7. 크레딧 잔액";
       description := "이미지 PDF 변환에 사용되는 크레딧입니다. 1페이지당 55원이 차감됩니다. 일반 문서 변환은 무료입니다.";
       position := "right" |} ].

(** What the tour shows: the welcome dialog, the overlay and the tooltip
    (hidden or not), the element that carries the highlight, the texts of
    the tooltip and of its buttons, the active dot of the step indicator.
    All elements of [tourElements] are taken to exist; where the tooltip
    is placed on the screen is not part of the model. *)
Record View := {
  welcome_hidden : bool;
  overlay_hidden : bool;
  tooltip_hidden : bool;
  highlight : option string;
  shown_title : string;
  shown_description : string;
  prev_hidden : bool;
  next_text : string;
  active_dot : option nat
}.

(** [currentTourStep], [tourActive], the ['lawpro_visited'] entry of the
    local storage, and the page. *)
Record State := {
  currentTourStep : nat;
  tourActive : bool;
  visited : bool;
  view : View
}.

Definition clear_highlight (v : View) : View :=
  {| welcome_hidden := welcome_hidden v; overlay_hidden := overlay_hidden v;
     tooltip_hidden := tooltip_hidden v; highlight := None;
     shown_title := shown_title v; shown_description := shown_description v;
     prev_hidden := prev_hidden v; next_text := next_text v;
     active_dot := active_dot v |}.

(** [hideWelcomeModal()]. *)
Definition hideWelcomeModal (st : State) : State :=
  {| currentTourStep := currentTourStep st; tourActive := tourActive st;
     visited := true;
     view := {| welcome_hidden := true;
                overlay_hidden := overlay_hidden (view st);
                tooltip_hidden := tooltip_hidden (view st);
                highlight := highlight (view st);
                shown_title := shown_title (view st);
                shown_description := shown_description (view st);
                prev_hidden := prev_hidden (view st);
                next_text := next_text (view st);
                active_dot := active_dot (view st) |} |}.

(** [checkFirstVisit()]: the welcome dialog comes up unless the visit is
    on record. *)
Definition checkFirstVisit (st : State) : State :=
  if visited st then st
  else {| currentTourStep := currentTourStep st; tourActive := tourActive st;
          visited := visited st;
          view := {| welcome_hidden := false;
                     overlay_hidden := overlay_hidden (view st);
                     tooltip_hidden := tooltip_hidden (view st);
                     highlight := highlight (view st);
                     shown_title := shown_title (view st);
                     shown_description := shown_description (view st);
                     prev_hidden := prev_hidden (view st);
                     next_text := next_text (view st);
                active_dot := active_dot (view st) |} |}.

(** [endTour()]. *)
Definition endTour (st : State) : State :=
  {| currentTourStep := currentTourStep st; tourActive := false;
     visited := true;
     view := {| welcome_hidden := welcome_hidden (view st);
                overlay_hidden := true;
                tooltip_hidden := true;
                highlight := None;
                shown_title := shown_title (view st);
                shown_description := shown_description (view st);
                prev_hidden := prev_hidden (view st);
                next_text := next_text (view st);
                active_dot := active_dot (view st) |} |}.

Section WithPage.

(** [document.querySelector(selector)] finds an element. *)
Variable querySelector : string -> bool.

(** [showTourStep(stepIndex)].  A step whose target is missing makes the
    function advance [currentTourStep] and call itself; [fuel] bounds the
    number of calls, [None] is "out of fuel". *)
Fixpoint showTourStep (fuel : nat) (stepIndex : nat) (st : State)
  : option State :=
  match fuel with
  | O => None
  | S fuel' =>
      match tourSteps !! stepIndex with
      | None => Some (endTour st)
      | Some step =>
          if querySelector (target step) then
            Some {| currentTourStep := currentTourStep st;
                    tourActive := tourActive st;
                    visited := visited st;
                    view := {| welcome_hidden := welcome_hidden (view st);
                               overlay_hidden := false;
                               tooltip_hidden := false;
                               highlight := Some (target step);
                               shown_title := title step;
                               shown_description := description step;
                               prev_hidden := Nat.eqb stepIndex 0;
                               next_text :=
                                 if Nat.eqb stepIndex (length tourSteps - 1)
                                 then "완료" else "다음";
                               active_dot := Some stepIndex |} |}
          else
            let st1 := {| currentTourStep := S (currentTourStep st);
                          tourActive := tourActive st;
                          visited := visited st;
                          view := clear_highlight (view st) |} in
            showTourStep fuel' (currentTourStep st1) st1
      end
  end.

(** As many calls as [showTourStep] can need. *)
Definition tour_fuel : nat := S (length tourSteps).

(** [startTour()]. *)
Definition startTour (st : State) : option State :=
  let st1 := hideWelcomeModal st in
  showTourStep tour_fuel 0
    {| currentTourStep := 0; tourActive := true; visited := visited st1;
       view := view st1 |}.

(** [nextTourStep()]; the flag tells whether the closing message is
    shown. *)
Definition nextTourStep (st : State) : option (State * bool) :=
  let st1 := {| currentTourStep := S (currentTourStep st);
                tourActive := tourActive st; visited := visited st;
                view := view st |} in
  if Nat.leb (length tourSteps) (currentTourStep st1)
  then Some (endTour st1, true)
  else match showTourStep tour_fuel (currentTourStep st1) st1 with
       | Some st2 => Some (st2, false)
       | None => None
       end.

(** [prevTourStep()]. *)
Definition prevTourStep (st : State) : option State :=
  if Nat.ltb 0 (currentTourStep st) then
    let st1 := {| currentTourStep := currentTourStep st - 1;
                  tourActive := tourActive st; visited := visited st;
                  view := view st |} in
    showTourStep tour_fuel (currentTourStep st1) st1
  else Some st.

(** The tour is on display at a step whose target is on the page. *)
Definition showing (st : State) : Prop :=
  exists step, tourSteps !! currentTourStep st = Some step /\
    querySelector (target step) = true /\
    highlight (view st) = Some (target step) /\
    shown_title (view st) = title step /\
    overlay_hidden (view st) = false /\ tooltip_hidden (view st) = false.

(** No step from [i] up to (not including) [j] has its target on the
    page. *)
Definition missing_between (i j : nat) : Prop :=
  forall k step, i <= k < j -> tourSteps !! k = Some step ->
                 querySelector (target step) = false.

(** The tour is over. *)
Definition ended (st : State) : Prop :=
  tourActive st = false /\ visited st = true /\
  highlight (view st) = None /\
  overlay_hidden (view st) = true /\ tooltip_hidden (view st) = true.

End WithPage.

(** A page before its first visit. *)
Definition fresh : State :=
  {| currentTourStep := 0; tourActive := false; visited := false;
     view := {| welcome_hidden := true; overlay_hidden := true;
                tooltip_hidden := true; highlight := None;
                shown_title := ""; shown_description := "";
                prev_hidden := true; next_text := "";
                active_dot := None |} |}.

End Tour.

(** ** More handlers of the main process (src/src/main.js) *)

Module Handlers.
Import Credits.

(** How the promise returned by a handler settles. *)
Inductive Settled :=
| resolve (value : json)
| reject (message : string).

(** The settings store ([electron-store]): [store.get(key, default)] and
    [store.set(key, value)]. *)
Definition store_get (store : gmap string json) (key : string) (dflt : json)
  : json :=
  default dflt (store !! key).

Definition store_set (store : gmap string json) (key : string) (value : json)
  : gmap string json :=
  <[key := value]> store.

Section Main.

Variable execSync : string -> option string.

(** [spawn(command, args, ...)] observed until ['close']: the chunks given
    to the [stdout] listener, the chunks given to the [stdout] and
    [stderr] listeners in the order of arrival, and the exit code ([None]
    when the process was ended by a signal), the last one for a process
    that is fed [input] on its standard input. *)
Variable spawn_stdout : string -> list string -> list string.
Variable spawn_output : string -> list string -> list string.
Variable spawn_exit : string -> list string -> string -> option Z.

Variable JSON_parse : string -> option json.
Variable enginePath : string.
Variable path_join : string -> string -> string.

(** [ipcMain.handle('get-credit-balance', ...)]. *)
Definition get_credit_balance : json :=
  match getPythonCommand execSync with
  | None =>
      JObject [("credits", JNumber 0); ("is_admin", JBool false);
               ("error", JString "Python not found")]
  | Some pythonCmd =>
      let scriptPath := path_join enginePath "credit_manager.py" in
      let output :=
        collect_output (spawn_stdout pythonCmd [scriptPath; "balance"]) in
      match JSON_parse output with
      | Some result => result
      | None => JObject [("credits", JNumber 0); ("is_admin", JBool false)]
      end
  end.

(** [ipcMain.handle('get-credit-packages', ...)]. *)
Definition get_credit_packages : json :=
  match getPythonCommand execSync with
  | None => JObject [("packages", JArray [])]
  | Some pythonCmd =>
      let scriptPath := path_join enginePath "credit_manager.py" in
      let output :=
        collect_output (spawn_stdout pythonCmd [scriptPath; "packages"]) in
      match JSON_parse output with
      | Some result => result
      | None => JObject [("packages", JArray [])]
      end
  end.

(** [ipcMain.handle('add-credits', ...)]. *)
Definition add_credits (packageId : string) : Settled :=
  match getPythonCommand execSync with
  | None => reject "Python 3이 설치되어 있지 않습니다."
  | Some pythonCmd =>
      let scriptPath := path_join enginePath "credit_manager.py" in
      let output :=
        collect_output (spawn_stdout pythonCmd [scriptPath; "add"; packageId]) in
      match JSON_parse output with
      | Some result => resolve result
      | None => resolve (JObject [("success", JBool false);
                                  ("error", JString output)])
      end
  end.



(** [ipcMain.handle('collect-corrections', ...)]; [stdin] is
    [JSON.stringify(corrections)] and [n] is [corrections.length]. *)
Definition collect_corrections (stdin : string) (n : nat) : Settled :=
  match getPythonCommand execSync with
  | None => resolve (JObject [("success", JBool false);
                              ("error", JString "Python not found")])
  | Some pythonCmd =>
      let scriptPath := path_join enginePath "error_learning.py" in
      let code := spawn_exit pythonCmd [scriptPath; "collect-batch"] stdin in
      resolve (JObject [("success", JBool (bool_decide (code = Some 0%Z)));
                        ("count", JNumber (Z.of_nat n))])
  end.

(** [cmd --version] runs and its output names Python 3. *)
Definition reports_python3 (cmd : string) : Prop :=
  exists out, execSync (cmd +:+ " --version") = Some out /\
              includes out "Python 3" = true.

End Main.

(** [ipcMain.handle('save-upstage-key', ...)]; [UPSTAGE_API_KEY] is
    [process.env.UPSTAGE_API_KEY], [None] when it is not set. *)
Definition save_upstage_key (UPSTAGE_API_KEY : option string) (key : string)
  (store : gmap string json) : json * gmap string json :=
  if Js.truthy UPSTAGE_API_KEY then
    (JObject [("success", JBool false);
              ("error", JString "Environment variable is set")], store)
  else
    (JObject [("success", JBool true)],
     store_set store "upstageKey" (JString key)).

(** [ipcMain.handle('get-upstage-key', ...)]:
    [process.env.UPSTAGE_API_KEY || store.get('upstageKey', '')]. *)
Definition get_upstage_key (UPSTAGE_API_KEY : option string)
  (store : gmap string json) : json :=
  match UPSTAGE_API_KEY with
  | Some v => if String.eqb v "" then store_get store "upstageKey" (JString "")
              else JString v
  | None => store_get store "upstageKey" (JString "")
  end.

(** What [await window.lawpro.collectCorrections(...)] of the renderer
    sees of a settled handler. *)
Definition awaited (s : Settled) : Review.Outcome :=
  match s with
  | resolve _ => Review.Resolved
  | reject message => Review.Rejected message
  end.


Definition failing_exit (command : string) (args : list string)
  (input : string) : option Z := Some 1%Z.

Definition sample_join (a b : string) : string := a +:+ "/" +:+ b.

Definition sample_collect_env : Review.Env :=
  {| Review.now := "2024-01-01T00:00:00.000Z";
     Review.reviewFolderPath := "/out";
     Review.writeJsonFile := fun _ _ => Review.Resolved;
     Review.collectCorrections := fun items =>
       awaited (collect_corrections no_python failing_exit "/engine"
                  sample_join "[...]" (length items)) |}.

End Handlers.

(** ** More of the schema (src/server/supabase_schema.sql) *)

Module Schema.
Import PatternStore.

(** A multi-row [INSERT ... ON CONFLICT DO NOTHING]: the rows are taken in
    order, a row in conflict with the table as it then is (earlier rows of
    the statement included) is skipped. *)
Definition insert_all_on_conflict_do_nothing (rows : list error_pattern)
  (t : list error_pattern) : list error_pattern :=
  foldl (fun acc row => insert_on_conflict_do_nothing row acc) t rows.

(** The sample rows of the schema; 1 to 6 stand for the six values of
    [gen_random_uuid()], [now] is [NOW()]. *)
Definition sample_rows (now : Z) : list error_pattern :=
  [ new_pattern 1 now "계약Z" "계약을" "image_pdf"
      (Some "ocr_한영혼동") (Some "OCR이 을을 Z로 인식");
    new_pattern 2 now "권리Z" "권리를" "image_pdf"
      (Some "ocr_한영혼동") (Some "OCR이 를을 Z로 인식");
    new_pattern 3 now "것E" "것은" "image_pdf"
      (Some "ocr_한영혼동") (Some "OCR이 은을 E로 인식");
    new_pattern 4 now "게1조" "제1조" "image_pdf"
      (Some "ocr_법률용어") (Some "OCR이 제를 게로 인식");
    new_pattern 5 now "게2항" "제2항" "image_pdf"
      (Some "ocr_법률용어") (Some "OCR이 제를 게로 인식");
    new_pattern 6 now "벌률" "법률" "image_pdf"
      (Some "ocr_오타") (Some "OCR이 법을 벌로 인식") ].

(** A row of [conversions].  [DEFAULT] does not make a column NOT NULL:
    the nullable columns are options. *)
Record conversion := {
  c_id : positive;
  user_id : option positive;
  file_name : string;
  file_type : string;
  file_size : option Z;
  page_count : option Z;
  credits_used : option Z;
  status : option string;
  error_message : option string;
  processing_time_ms : option Z;
  c_created_at : option Z
}.

(** A row of the view [daily_conversion_stats]. *)
Record stats_row := {
  stat_date : option Z;
  total_conversions : Z;
  total_pages : option Z;
  total_credits : option Z;
  unique_users : Z;
  s_file_type : string;
  completed : Z;
  failed : Z
}.

(** [SUM(column)]: NULLs are passed over, and the sum of no value is
    NULL. *)
Definition sql_sum (values : list (option Z)) : option Z :=
  match omap (fun v => v) values with
  | [] => None
  | v :: vs => Some (foldr Z.add 0%Z (v :: vs))
  end.

(** [COUNT( * ) FILTER (WHERE status = s)]: a NULL status is not counted. *)
Definition count_status (s : string) (group : list conversion) : Z :=
  Z.of_nat (length (filter (fun c => status c = Some s) group)).

(** [COUNT(DISTINCT user_id)]: the distinct non-NULL values. *)
Definition count_distinct_users (group : list conversion) : Z :=
  Z.of_nat (length (remove_dups (omap user_id group))).

Section WithDate.

(** [DATE(timestamp)] in the time zone of the session. *)
Variable DATE : Z -> Z.

(** The GROUP BY key, [DATE(created_at), file_type]; NULL dates form one
    group. *)
Definition group_key (c : conversion) : option Z * string :=
  (DATE <$> c_created_at c, file_type c).

Definition group_of (key : option Z * string) (t : list conversion)
  : list conversion :=
  filter (fun c => group_key c = key) t.

(** The SELECT list over one group. *)
Definition stats_of (key : option Z * string) (t : list conversion)
  : stats_row :=
  let group := group_of key t in
  {| stat_date := fst key;
     total_conversions := Z.of_nat (length group);
     total_pages := sql_sum (page_count <$> group);
     total_credits := sql_sum (credits_used <$> group);
     unique_users := count_distinct_users group;
     s_file_type := snd key;
     completed := count_status "completed" group;
     failed := count_status "failed" group |}.

Definition group_keys (t : list conversion) : list (option Z * string) :=
  remove_dups (group_key <$> t).

(** [ORDER BY stat_date DESC]; in descending order NULLs come first. *)
Definition date_desc (a b : stats_row) : Prop :=
  match stat_date a, stat_date b with
  | None, _ => True
  | Some _, None => False
  | Some x, Some y => (y <= x)%Z
  end.

#[global] Instance date_desc_dec : RelDecision date_desc.
Proof.
  intros a b. unfold date_desc.
  destruct (stat_date a), (stat_date b); apply _.
Defined.

(** The view, with one admissible order of the rows of a day. *)
Definition daily_conversion_stats (t : list conversion) : list stats_row :=
  merge_sort date_desc ((fun key => stats_of key t) <$> group_keys t).

Definition sum_total (rows : list stats_row) : Z :=
  foldr (fun r acc => (total_conversions r + acc)%Z) 0%Z rows.

End WithDate.

(** A few conversions of two days, for examples. *)
Definition sample_conversion (n : positive) (user : option positive)
  (ftype : string) (st : option string) (day : Z) : conversion :=
  {| c_id := n; user_id := user; file_name := "f"; file_type := ftype;
     file_size := None; page_count := Some 2%Z; credits_used := None;
     status := st; error_message := None; processing_time_ms := None;
     c_created_at := Some day |}.

Definition sample_conversions : list conversion :=
  [ sample_conversion 1 (Some 7%positive) "pdf" (Some "completed") 10;
    sample_conversion 2 (Some 7%positive) "pdf" (Some "failed") 10;
    sample_conversion 3 None "docx" (Some "completed") 10;
    sample_conversion 4 (Some 8%positive) "pdf" None 11 ].

End Schema.

(** ** The worker pool of the engine (src/unnamed/part_001, §3.1.3) *)

Module WorkerPool.

(** [MAX_WORKERS = min(32, (os.cpu_count() or 4) * 2)]; [cpu_count] is
    [None] when the number of CPUs cannot be determined. *)
Definition MAX_WORKERS (cpu_count : option Z) : Z :=
  let n := match cpu_count with
           | Some c => if (c =? 0)%Z then 4%Z else c
           | None => 4%Z
           end in
  Z.min 32 (n * 2).

End WorkerPool.

(** * Properties *)

(** ** Strings *)

Module JsFacts.

Lemma prefix_app (p v : string) : String.prefix p (p +:+ v) = true.
Proof.
  induction p as [|a p IH]; simpl.
  - destruct v; reflexivity.
  - destruct (Ascii.ascii_dec a a); [exact IH | congruence].
Qed.

Lemma prefix_inv (p s : string) :
  String.prefix p s = true -> exists v, s = p +:+ v.
Proof.
  revert s. induction p as [|a p IH]; intros s H.
  - exists s. reflexivity.
  - destruct s as [|b s]; simpl in H; [discriminate|].
    destruct (Ascii.ascii_dec a b) as [->|]; [|discriminate].
    destruct (IH s H) as [v ->]. exists v. reflexivity.
Qed.

Lemma slice_app (p v : string) : Js.slice (String.length p) (p +:+ v) = v.
Proof. induction p as [|a p IH]; simpl; [reflexivity | exact IH]. Qed.

Lemma truthy_Some (s : string) : Js.truthy (Some s) = true <-> s <> "".
Proof.
  simpl. destruct (String.eqb_spec s ""); simpl; split; intros; congruence.
Qed.

Example replace_first_only :
  Js.replace ".html" "_review.json" "a.html.html" = "a_review.json.html".
Proof. reflexivity. Qed.

Example slice_edited : Js.slice 7 "edited:abc" = "abc".
Proof. reflexivity. Qed.

Example or_else_empty : Js.or_else (Some "") "unknown" = "unknown".
Proof. reflexivity. Qed.

End JsFacts.

(** ** The review session *)

Module ReviewFacts.
Import Review.

Lemma isEdited_iff (s : string) :
  isEdited s = true <-> exists v, s = "edited:" +:+ v.
Proof.
  unfold isEdited, Js.startsWith. split.
  - apply JsFacts.prefix_inv.
  - intros [v ->]. apply JsFacts.prefix_app.
Qed.

Lemma accepted_iff (d : gmap nat string) (i : nat) :
  accepted (decision_at d i) = true <-> confirmed_or_edited d i.
Proof.
  unfold accepted, decision_at, confirmed_or_edited, is_confirmed, is_edited.
  rewrite orb_true_iff, isEdited_iff.
  destruct (d !! i) as [s|] eqn:Hs; simpl.
  - destruct (String.eqb_spec s "") as [->|Hne].
    + split.
      * intros [H|[v H]]; discriminate.
      * intros [H|[v H]]; discriminate.
    + rewrite String.eqb_eq. split.
      * intros [->|[v ->]]; [left; reflexivity | right; exists v; reflexivity].
      * intros [H|[v H]]; inversion H; subst;
          [left; reflexivity | right; exists v; reflexivity].
  - split.
    + intros [H|[v H]]; discriminate.
    + intros [H|[v H]]; discriminate.
Qed.

(** *** Recording one decision *)

(** C5. Recording a decision for a candidate stores it whatever was there
    before: the slot of the candidate holds the new decision, a decision
    recorded earlier for the same candidate is overwritten, recording the
    same decision twice gives the state that recording it once gives, the
    other candidates keep their decisions, and the step only re-renders:
    no review record is written, so the session does not become saved. *)
Theorem handleCorrectionDecision_overwrites
  (st : CorrectionState) (index : nat) (decision prior : string) :
  let st1 := fst (handleCorrectionDecision index decision st) in
  decisions st1 !! index = Some decision /\
  fst (handleCorrectionDecision index decision
         (fst (handleCorrectionDecision index prior st))) = st1 /\
  fst (handleCorrectionDecision index decision st1) = st1 /\
  (forall j, j <> index -> decisions st1 !! j = decisions st !! j) /\
  currentFile st1 = currentFile st /\
  corrections st1 = corrections st /\
  snd (handleCorrectionDecision index decision st) = [ERender] /\
  saves (snd (handleCorrectionDecision index decision st)) = false.
Proof.
  simpl. repeat split.
  - apply lookup_insert_eq.
  - unfold set_decisions; simpl. f_equal. apply insert_insert_eq.
  - unfold set_decisions; simpl. f_equal. apply insert_insert_eq.
  - intros j Hj. apply lookup_insert_ne. congruence.
Qed.

(** *** Confirm all *)

Lemma confirmAll_loop_lookup (cs : list Correction) (k : nat)
  (d : gmap nat string) (i : nat) :
  confirmAll_loop cs k d !! i =
  if decide (k <= i < k + length cs)
  then (if Js.truthy (d !! i) then d !! i else Some "confirmed")
  else d !! i.
Proof.
  revert k d. induction cs as [|c cs IH]; intros k d; simpl.
  - case_decide; [lia | reflexivity].
  - rewrite IH. destruct (decide (i = k)) as [->|Hne].
    + rewrite decide_False by lia. rewrite decide_True by lia.
      destruct (Js.truthy (d !! k)); [reflexivity | apply lookup_insert_eq].
    + assert (Hd : (if Js.truthy (d !! k) then d
                    else <[k:="confirmed"]> d) !! i = d !! i).
      { destruct (Js.truthy (d !! k)); [reflexivity|].
        apply lookup_insert_ne. congruence. }
      rewrite Hd.
      destruct (decide (S k <= i < S k + length cs));
        destruct (decide (k <= i < k + S (length cs))); try lia; reflexivity.
Qed.

(** C4. "Confirm all remaining" gives every candidate without a recorded
    decision the decision 'confirmed' and leaves every decision that is
    already recorded (confirmed, rejected or edited, and any other
    non-empty decision string) as it is; the candidates and the selected
    file are untouched. *)
Theorem confirmAllCorrections_fills_undecided (st : CorrectionState) :
  let st' := fst (confirmAllCorrections st) in
  (forall i, i < length (corrections st) -> undecided (decisions st) i ->
             is_confirmed (decisions st') i) /\
  (forall i, is_confirmed (decisions st) i -> is_confirmed (decisions st') i) /\
  (forall i, is_rejected (decisions st) i -> is_rejected (decisions st') i) /\
  (forall i v, is_edited (decisions st) i v -> is_edited (decisions st') i v) /\
  (forall i s, decisions st !! i = Some s -> s <> "" ->
               decisions st' !! i = Some s) /\
  (forall i, length (corrections st) <= i ->
             decisions st' !! i = decisions st !! i) /\
  corrections st' = corrections st /\
  currentFile st' = currentFile st.
Proof.
  assert (Hkeep : forall i s, decisions st !! i = Some s -> s <> "" ->
            decisions (fst (confirmAllCorrections st)) !! i = Some s).
  { intros i s Hs Hne. simpl. rewrite confirmAll_loop_lookup, Hs.
    apply JsFacts.truthy_Some in Hne. rewrite Hne.
    case_decide; reflexivity. }
  simpl. repeat split.
  - intros i Hi Hu. unfold undecided in Hu. unfold is_confirmed.
    rewrite confirmAll_loop_lookup, Hu. simpl.
    rewrite decide_True by lia. reflexivity.
  - intros i H. apply Hkeep; [exact H | discriminate].
  - intros i H. apply Hkeep; [exact H | discriminate].
  - intros i v H. apply Hkeep; [exact H | discriminate].
  - exact Hkeep.
  - intros i Hi. rewrite confirmAll_loop_lookup.
    rewrite decide_False by lia. reflexivity.
Qed.

(** *** Saving *)

Lemma decision_at_undecided (d : gmap nat string) (i : nat) :
  undecided d i -> decision_at d i = "pending".
Proof. unfold undecided, decision_at. intros ->. reflexivity. Qed.

Lemma decision_at_confirmed (d : gmap nat string) (i : nat) :
  is_confirmed d i -> decision_at d i = "confirmed".
Proof. unfold is_confirmed, decision_at. intros ->. reflexivity. Qed.

Lemma decision_at_rejected (d : gmap nat string) (i : nat) :
  is_rejected d i -> decision_at d i = "rejected".
Proof. unfold is_rejected, decision_at. intros ->. reflexivity. Qed.

Lemma decision_at_edited (d : gmap nat string) (i : nat) (v : string) :
  is_edited d i v -> decision_at d i = "edited:" +:+ v.
Proof. unfold is_edited, decision_at. intros ->. reflexivity. Qed.

Lemma isEdited_edited (v : string) : isEdited ("edited:" +:+ v) = true.
Proof. apply isEdited_iff. exists v. reflexivity. Qed.

Lemma save_loop_fst (cf : string) (d : gmap nat string) (cs : list Correction)
  (k : nat) (es : list ReviewEntry) (ls : list LearnItem) :
  fst (save_loop cf d cs k es ls) =
  es ++ imap (fun j c => review_entry c (decision_at d (k + j))) cs.
Proof.
  revert k es ls. induction cs as [|c cs IH]; intros k es ls; simpl.
  - symmetry. apply app_nil_r.
  - rewrite IH, <- app_assoc. simpl. f_equal.
    rewrite Nat.add_0_r. f_equal.
    apply imap_ext. intros j x _. simpl. do 2 f_equal. lia.
Qed.

Lemma forwarded_indices_cons (d : gmap nat string) (k n : nat) :
  forwarded_indices d k (S n) =
  if accepted (decision_at d k)
  then k :: forwarded_indices d (S k) n
  else forwarded_indices d (S k) n.
Proof.
  unfold forwarded_indices. simpl. rewrite filter_cons.
  destruct (accepted (decision_at d k)); case_decide; congruence.
Qed.

Lemma save_loop_snd (cf : string) (d : gmap nat string)
  (cs0 cs : list Correction) (k : nat)
  (es : list ReviewEntry) (ls : list LearnItem) :
  (forall j c, cs !! j = Some c -> cs0 !! (k + j) = Some c) ->
  exists items,
    snd (save_loop cf d cs k es ls) = ls ++ items /\
    Forall2 (fun i item => exists c, cs0 !! i = Some c /\
                             accepted (decision_at d i) = true /\
                             item = learn_item cf c (decision_at d i))
            (forwarded_indices d k (length cs)) items.
Proof.
  revert k es ls. induction cs as [|c cs IH]; intros k es ls Hcs; simpl.
  - exists []. split; [symmetry; apply app_nil_r | constructor].
  - assert (Hc : cs0 !! k = Some c).
    { rewrite <- (Nat.add_0_r k). apply Hcs. reflexivity. }
    assert (Hcs' : forall j x, cs !! j = Some x -> cs0 !! (S k + j) = Some x).
    { intros j x Hj. replace (S k + j) with (k + S j) by lia.
      apply Hcs. exact Hj. }
    rewrite forwarded_indices_cons. fold (decision_at d k).
    fold (accepted (decision_at d k)).
    destruct (accepted (decision_at d k)) eqn:Hacc.
    + destruct (IH (S k) (es ++ [review_entry c (decision_at d k)])
                  (ls ++ [learn_item cf c (decision_at d k)]) Hcs')
        as (items & Heq & HF).
      exists (learn_item cf c (decision_at d k) :: items). split.
      * rewrite Heq, <- app_assoc. reflexivity.
      * constructor; [|exact HF]. exists c. auto.
    + destruct (IH (S k) (es ++ [review_entry c (decision_at d k)]) ls Hcs')
        as (items & Heq & HF).
      exists items. split; [exact Heq | exact HF].
Qed.

Lemma learn_item_forwards (cf : string) (st : CorrectionState) (i : nat)
  (c : Correction) :
  corrections st !! i = Some c ->
  accepted (decision_at (decisions st) i) = true ->
  forwards cf st i (learn_item cf c (decision_at (decisions st) i)).
Proof.
  intros Hc Hacc. exists c. split; [exact Hc|].
  split; [reflexivity|]. split; [reflexivity|].
  apply accepted_iff in Hacc. destruct Hacc as [Hconf | [v Hed]].
  - left. split; [exact Hconf|].
    rewrite (decision_at_confirmed _ _ Hconf). split; reflexivity.
  - right. exists v. split; [exact Hed|].
    rewrite (decision_at_edited _ _ _ Hed).
    unfold learn_item. simpl li_corrected. simpl li_decision.
    rewrite isEdited_edited. split; reflexivity.
Qed.

Lemma to_learn_forwards (cf : string) (st : CorrectionState) :
  Forall2 (forwards cf st)
    (forwarded_indices (decisions st) 0 (length (corrections st)))
    (to_learn st cf).
Proof.
  unfold to_learn.
  destruct (save_loop_snd cf (decisions st) (corrections st) (corrections st)
              0 [] []) as (items & Heq & HF).
  { intros j c Hj. exact Hj. }
  rewrite Heq. simpl.
  eapply Forall2_impl; [exact HF|].
  intros i item (c & Hc & Hacc & ->). apply learn_item_forwards; assumption.
Qed.

Lemma elem_of_forwarded_indices (d : gmap nat string) (n i : nat) :
  i ∈ forwarded_indices d 0 n <-> i < n /\ confirmed_or_edited d i.
Proof.
  unfold forwarded_indices. rewrite list_elem_of_filter, elem_of_seq.
  rewrite accepted_iff. split; intros [H1 H2]; split; try assumption; lia.
Qed.

(** What [saveCorrectionReview] does once a file is selected. *)
Lemma saveCorrectionReview_selected (env : Env) (st : CorrectionState)
  (cf : string) :
  currentFile st = Some cf -> cf <> "" ->
  saveCorrectionReview env st =
  match writeJsonFile env (reviewPath env cf) (review_record env st cf) with
  | Rejected message =>
      [EWriteJsonFile (reviewPath env cf) (review_record env st cf);
       EAlert ("저장 실패: " +:+ message)]
  | Resolved =>
      [EWriteJsonFile (reviewPath env cf) (review_record env st cf)] ++
      (if Nat.ltb 0 (length (to_learn st cf)) then
         ECollectCorrections (to_learn st cf) ::
         match collectCorrections env (to_learn st cf) with
         | Resolved => [ELogCollected (length (to_learn st cf))]
         | Rejected learnError => [EWarnCollectFailed learnError]
         end
       else []) ++ save_reported
  end.
Proof.
  intros Hcf Hne. unfold saveCorrectionReview, review_record, to_learn.
  rewrite Hcf. apply JsFacts.truthy_Some in Hne. rewrite Hne. simpl.
  destruct (save_loop cf (decisions st) (corrections st) 0 [] [])
    as [entries learn]. reflexivity.
Qed.

Lemma saved_trace_forwarded (env : Env) (st : CorrectionState) (cf : string) :
  currentFile st = Some cf -> cf <> "" ->
  writeJsonFile env (reviewPath env cf) (review_record env st cf) = Resolved ->
  forwarded (saveCorrectionReview env st) = to_learn st cf /\
  written env (saveCorrectionReview env st) =
    [(reviewPath env cf, review_record env st cf)].
Proof.
  intros Hcf Hne Hw. rewrite (saveCorrectionReview_selected env st cf Hcf Hne).
  rewrite Hw. simpl. rewrite Hw.
  destruct (to_learn st cf) as [|item items] eqn:Hl; simpl.
  - split; reflexivity.
  - destruct (collectCorrections env (item :: items)); simpl;
      rewrite app_nil_r; split; reflexivity.
Qed.

Lemma review_record_lookup (env : Env) (st : CorrectionState) (cf : string)
  (i : nat) (c : Correction) :
  corrections st !! i = Some c ->
  rr_decisions (review_record env st cf) !! i =
  Some (review_entry c (decision_at (decisions st) i)).
Proof.
  intros Hc. simpl. rewrite save_loop_fst. simpl.
  rewrite list_lookup_imap, Hc. reflexivity.
Qed.

Lemma review_record_length (env : Env) (st : CorrectionState) (cf : string) :
  length (rr_decisions (review_record env st cf)) = length (corrections st).
Proof. simpl. rewrite save_loop_fst. simpl. apply length_imap. Qed.

Lemma forwarded_count_example (st : CorrectionState) :
  two_confirmed_one_rejected st ->
  length (forwarded_indices (decisions st) 0 (length (corrections st))) = 2.
Proof.
  intros (Hlen & r & Hr & Hrej & Hconf). rewrite Hlen.
  rewrite !forwarded_indices_cons.
  destruct r as [|[|[|r]]]; [| | |lia].
  - rewrite (decision_at_rejected _ _ Hrej).
    rewrite (decision_at_confirmed _ 1), (decision_at_confirmed _ 2)
      by (apply Hconf; lia).
    reflexivity.
  - rewrite (decision_at_rejected _ _ Hrej).
    rewrite (decision_at_confirmed _ 0), (decision_at_confirmed _ 2)
      by (apply Hconf; lia).
    reflexivity.
  - rewrite (decision_at_rejected _ _ Hrej).
    rewrite (decision_at_confirmed _ 0), (decision_at_confirmed _ 1)
      by (apply Hconf; lia).
    reflexivity.
Qed.

(** C1. When a review session is saved (a file is selected and the record
    is written), the written record holds one entry per candidate, in
    order, each carrying its candidate; a candidate without a recorded
    decision is stored as 'pending', a confirmed, rejected or edited one
    under that disposition (with the edited value); the list handed to the
    learning collector consists of exactly the candidates that are
    confirmed or edited, in order, each with the proposed correction
    (confirmed) or the reviewer's value (edited) as corrected text; no
    undecided, rejected or 'pending' candidate is among them; and a session
    of three candidates, two confirmed and one rejected, hands over exactly
    two records. *)
Theorem saveCorrectionReview_saves_and_forwards
  (env : Env) (st : CorrectionState) (cf : string) :
  currentFile st = Some cf -> cf <> "" ->
  writeJsonFile env (reviewPath env cf) (review_record env st cf) = Resolved ->
  let tr := saveCorrectionReview env st in
  let d := decisions st in
  let n := length (corrections st) in
  written env tr = [(reviewPath env cf, review_record env st cf)] /\
  length (rr_decisions (review_record env st cf)) = n /\
  (forall i c, corrections st !! i = Some c ->
     exists e, rr_decisions (review_record env st cf) !! i = Some e /\
       entry_correction e = c /\
       (undecided d i ->
          entry_decision e = "pending" /\ entry_edited_value e = None) /\
       (is_confirmed d i ->
          entry_decision e = "confirmed" /\ entry_edited_value e = None) /\
       (is_rejected d i ->
          entry_decision e = "rejected" /\ entry_edited_value e = None) /\
       (forall v, is_edited d i v ->
          entry_decision e = "edited" /\ entry_edited_value e = Some v)) /\
  (forall i, i ∈ forwarded_indices d 0 n <-> i < n /\ confirmed_or_edited d i) /\
  Forall2 (forwards cf st) (forwarded_indices d 0 n) (forwarded tr) /\
  (forall i, undecided d i \/ is_rejected d i \/ d !! i = Some "pending" ->
             i ∉ forwarded_indices d 0 n) /\
  (two_confirmed_one_rejected st -> length (forwarded tr) = 2).
Proof.
  intros Hcf Hne Hw tr d n.
  destruct (saved_trace_forwarded env st cf Hcf Hne Hw) as [Hfwd Hwritten].
  subst tr d n. rewrite Hfwd.
  split; [exact Hwritten|].
  split; [apply review_record_length|].
  split.
  { intros i c Hc. eexists. split; [apply review_record_lookup; exact Hc|].
    split; [reflexivity|].
    split; [intros H; rewrite (decision_at_undecided _ _ H); split; reflexivity|].
    split; [intros H; rewrite (decision_at_confirmed _ _ H); split; reflexivity|].
    split; [intros H; rewrite (decision_at_rejected _ _ H); split; reflexivity|].
    intros v H. rewrite (decision_at_edited _ _ _ H).
    unfold review_entry. simpl entry_decision. simpl entry_edited_value.
    rewrite isEdited_edited. split; reflexivity. }
  split; [intros i; apply elem_of_forwarded_indices|].
  split; [apply to_learn_forwards|].
  split.
  { intros i H Hin. apply elem_of_forwarded_indices in Hin.
    destruct Hin as [_ [Hc | [v He]]];
      unfold undecided, is_rejected, is_confirmed, is_edited in *;
      destruct H as [H | [H | H]]; rewrite H in *; discriminate. }
  intros Hex. rewrite <- (Forall2_length _ _ _ (to_learn_forwards cf st)).
  apply forwarded_count_example. exact Hex.
Qed.

(** C9. Once the review record is written, a collector that throws does not
    turn the save into a failure: the record stays written, the trace ends
    with the success message and the closing of the dialog, the only
    message shown is the success message, and the collector's error only
    reaches the console as a warning. *)
Theorem saveCorrectionReview_survives_collect_failure
  (env : Env) (st : CorrectionState) (cf : string) (learnError : string) :
  currentFile st = Some cf -> cf <> "" ->
  writeJsonFile env (reviewPath env cf) (review_record env st cf) = Resolved ->
  collectCorrections env (to_learn st cf) = Rejected learnError ->
  let tr := saveCorrectionReview env st in
  written env tr = [(reviewPath env cf, review_record env st cf)] /\
  (exists before, tr = before ++ save_reported) /\
  (forall msg, EAlert msg ∈ tr -> msg = "검토 결과가 저장되었습니다.") /\
  (to_learn st cf <> [] ->
     tr = [EWriteJsonFile (reviewPath env cf) (review_record env st cf);
           ECollectCorrections (to_learn st cf);
           EWarnCollectFailed learnError] ++ save_reported).
Proof.
  intros Hcf Hne Hw Hc tr.
  destruct (saved_trace_forwarded env st cf Hcf Hne Hw) as [_ Hwritten].
  split; [exact Hwritten|]. subst tr.
  rewrite (saveCorrectionReview_selected env st cf Hcf Hne), Hw, Hc.
  destruct (to_learn st cf) as [|item items]; simpl.
  - split; [exists [EWriteJsonFile (reviewPath env cf) (review_record env st cf)];
            reflexivity|].
    split; [|congruence].
    intros msg Hin. unfold save_reported in Hin.
    rewrite !elem_of_cons in Hin.
    destruct Hin as [H|[H|[H|H]]]; try discriminate.
    + injection H as ->. reflexivity.
    + apply elem_of_nil in H. contradiction.
  - split; [exists [EWriteJsonFile (reviewPath env cf) (review_record env st cf);
                    ECollectCorrections (item :: items);
                    EWarnCollectFailed learnError]; reflexivity|].
    split; [|reflexivity].
    intros msg Hin. unfold save_reported in Hin.
    rewrite !elem_of_cons in Hin.
    destruct Hin as [H|[H|[H|[H|[H|H]]]]]; try discriminate.
    + injection H as ->. reflexivity.
    + apply elem_of_nil in H. contradiction.
Qed.

(** *** The statements on the sample session *)

Lemma sample_decided_two_confirmed_one_rejected :
  two_confirmed_one_rejected sample_decided.
Proof.
  split; [reflexivity|]. exists 1. split; [lia|]. split; [reflexivity|].
  intros [|[|[|i]]] Hi Hne; try lia; reflexivity.
Defined.

Lemma saveCorrectionReview_saves_and_forwards_witness :
  currentFile sample_decided = Some "a.html" /\
  two_confirmed_one_rejected sample_decided /\
  length (forwarded (saveCorrectionReview sample_env sample_decided)) = 2.
Proof.
  split; [reflexivity|].
  split; [exact sample_decided_two_confirmed_one_rejected|].
  apply (saveCorrectionReview_saves_and_forwards
           sample_env sample_decided "a.html");
    [reflexivity | discriminate | reflexivity
    | exact sample_decided_two_confirmed_one_rejected].
Defined.

Lemma saveCorrectionReview_survives_collect_failure_witness :
  collectCorrections sample_env (to_learn sample_decided "a.html") =
    Rejected "collector unavailable" /\
  exists before,
    saveCorrectionReview sample_env sample_decided = before ++ save_reported.
Proof.
  split; [reflexivity|].
  apply (saveCorrectionReview_survives_collect_failure
           sample_env sample_decided "a.html" "collector unavailable");
    [reflexivity | discriminate | reflexivity | reflexivity].
Defined.

Lemma confirmAllCorrections_fills_undecided_witness :
  undecided (decisions sample_partial) 2 /\
  is_confirmed (decisions sample_decided) 2 /\
  is_rejected (decisions sample_decided) 1.
Proof.
  pose proof (confirmAllCorrections_fills_undecided sample_partial) as H.
  cbv zeta in H. destruct H as (Hfill & _ & Hkeep & _).
  split; [reflexivity|]. split.
  - apply Hfill; [simpl; lia | reflexivity].
  - apply Hkeep. reflexivity.
Defined.

Lemma handleCorrectionDecision_overwrites_witness :
  decisions (fst (handleCorrectionDecision 1 "confirmed" sample_partial)) !! 0 =
  decisions sample_partial !! 0.
Proof.
  pose proof (handleCorrectionDecision_overwrites
                sample_partial 1 "confirmed" "") as H.
  cbv zeta in H. destruct H as (_ & _ & _ & H & _).
  apply H. discriminate.
Defined.

Example sample_review_path :
  reviewPath sample_env "a.html" = "/out/Final_Reviewed_Gemini/a_review.json".
Proof. reflexivity. Qed.

Example sample_partial_dispositions :
  entry_decision <$> rr_decisions (review_record sample_env sample_partial "a.html")
  = ["confirmed"; "rejected"; "pending"].
Proof. reflexivity. Qed.

Example sample_partial_forwards_one :
  li_original <$> forwarded (saveCorrectionReview sample_env sample_partial)
  = [Some "Z"].
Proof. reflexivity. Qed.

Example sample_edit_forwards_value :
  li_corrected <$>
    forwarded (saveCorrectionReview sample_env
                 (fst (handleCorrectionDecision 1 "edited:B" sample_partial)))
  = [Some "a"; Some "B"].
Proof. reflexivity. Qed.

Example no_file_selected :
  saveCorrectionReview sample_env (set_decisions
    {| files := []; currentFile := None; corrections := [];
       decisions := ∅; totalUncertain := 0 |} ∅)
  = [EAlert "파일을 먼저 선택해주세요."].
Proof. reflexivity. Qed.

End ReviewFacts.

(** ** The pattern store *)

Module PatternFacts.
Import PatternStore.

#[global] Instance score_desc_total : Total score_desc.
Proof. intros a b. unfold score_desc. lia. Qed.

#[global] Instance score_desc_trans : Transitive score_desc.
Proof. intros a b c. unfold score_desc. lia. Qed.

Lemma StronglySorted_lookup {A} (R : relation A) (l : list A) :
  StronglySorted R l ->
  forall i j a b, i < j -> l !! i = Some a -> l !! j = Some b -> R a b.
Proof.
  induction 1 as [|x l Hl IH Hx]; intros i j a b Hij Hi Hj.
  - rewrite lookup_nil in Hi. discriminate.
  - destruct j as [|j]; [lia|]. destruct i as [|i]; simpl in *.
    + injection Hi as <-. rewrite Forall_forall in Hx. apply Hx.
      apply list_elem_of_lookup. exists j. exact Hj.
    + apply (IH i j); [lia | assumption | assumption].
Qed.

Lemma int4_Some (z : Z) : in_int4 z -> int4 z = Some z.
Proof.
  unfold in_int4, int4. intros [H1 H2].
  apply Z.leb_le in H1. apply Z.leb_le in H2. rewrite H1, H2. reflexivity.
Qed.

Lemma int4_inv (z s : Z) : int4 z = Some s -> s = z /\ in_int4 z.
Proof.
  unfold int4, in_int4. destruct (int4_min <=? z)%Z eqn:H1; simpl; [|discriminate].
  destruct (z <=? int4_max)%Z eqn:H2; [|discriminate].
  intros [= <-]. apply Z.leb_le in H1. apply Z.leb_le in H2. auto.
Qed.

Lemma effectiveness_score_in_range (p : error_pattern) :
  in_int4 (usage_count p * 2) -> in_int4 (usage_count p * 2 + frequency p) ->
  effectiveness_score p = Some (usage_count p * 2 + frequency p)%Z.
Proof.
  intros H1 H2. unfold effectiveness_score.
  rewrite (int4_Some _ H1). apply int4_Some. exact H2.
Qed.

Lemma effectiveness_score_inv (p : error_pattern) (s : Z) :
  effectiveness_score p = Some s -> s = (usage_count p * 2 + frequency p)%Z.
Proof.
  unfold effectiveness_score.
  destruct (int4 (usage_count p * 2)) as [twice|] eqn:H1; [|discriminate].
  apply int4_inv in H1. destruct H1 as [-> _].
  intros H2. apply int4_inv in H2. tauto.
Qed.

Lemma select_row_inv (p : error_pattern) (row : ranking_row) :
  select_row p = Some row ->
  r_effectiveness_score row = (usage_count p * 2 + frequency p)%Z /\
  r_usage_count row = usage_count p /\ r_frequency row = frequency p /\
  r_is_active row = is_active p /\ r_source row = source p /\
  r_last_used row = last_used p /\ r_id row = id p /\
  r_original row = original p /\ r_corrected row = corrected p.
Proof.
  unfold select_row. destruct (effectiveness_score p) as [s|] eqn:Hs; [|discriminate].
  intros [= <-]. simpl. apply effectiveness_score_inv in Hs. tauto.
Qed.

Lemma ranking_rows_elem_of (t : list error_pattern) (rows : list ranking_row)
  (row : ranking_row) :
  ranking_rows t = Some rows ->
  row ∈ rows <->
  exists p, p ∈ t /\ is_active p = true /\ select_row p = Some row.
Proof.
  unfold ranking_rows. intros H. apply mapM_Some in H. split.
  - intros Hin. apply list_elem_of_lookup in Hin. destruct Hin as [i Hi].
    destruct (Forall2_lookup_r _ _ _ _ _ H Hi) as (p & Hp & Hsel).
    exists p. assert (Hpin : p ∈ filter (fun p => is_active p = true) t).
    { apply list_elem_of_lookup. exists i. exact Hp. }
    apply list_elem_of_filter in Hpin. tauto.
  - intros (p & Hp & Hact & Hsel).
    assert (Hpin : p ∈ filter (fun p => is_active p = true) t).
    { apply list_elem_of_filter. tauto. }
    apply list_elem_of_lookup in Hpin. destruct Hpin as [i Hi].
    destruct (Forall2_lookup_l _ _ _ _ _ H Hi) as (row' & Hrow' & Hsel').
    rewrite Hsel in Hsel'. injection Hsel' as <-.
    apply list_elem_of_lookup. exists i. exact Hrow'.
Qed.

Lemma ranking_rows_total (t : list error_pattern) :
  (forall p, p ∈ t -> is_active p = true ->
     in_int4 (usage_count p * 2) /\ in_int4 (usage_count p * 2 + frequency p)) ->
  is_Some (ranking_rows t).
Proof.
  intros H. unfold ranking_rows. apply mapM_is_Some_2.
  apply Forall_forall. intros p Hp. apply list_elem_of_filter in Hp.
  destruct Hp as [Hact Hp]. destruct (H p Hp Hact) as [H1 H2].
  unfold compose, select_row. rewrite (effectiveness_score_in_range p H1 H2).
  eexists. reflexivity.
Qed.

Lemma merge_sort_ranking_result (t : list error_pattern)
  (rows : list ranking_row) :
  ranking_rows t = Some rows -> ranking_result t (merge_sort score_desc rows).
Proof.
  intros H. exists rows. split; [exact H|]. split.
  - symmetry. apply merge_sort_Permutation.
  - apply StronglySorted_merge_sort; apply _.
Qed.

Lemma ranking_result_ahead (t : list error_pattern) (r : list ranking_row)
  (p1 p2 : error_pattern) (row1 row2 : ranking_row) :
  ranking_result t r ->
  p1 ∈ t -> p2 ∈ t -> is_active p1 = true -> is_active p2 = true ->
  select_row p1 = Some row1 -> select_row p2 = Some row2 ->
  (r_effectiveness_score row2 < r_effectiveness_score row1)%Z ->
  ranks_ahead r row1 row2.
Proof.
  intros (rows & Hrows & Hperm & Hsorted) Hp1 Hp2 Ha1 Ha2 Hs1 Hs2 Hlt.
  assert (Hin : forall p row, p ∈ t -> is_active p = true ->
            select_row p = Some row -> exists i, r !! i = Some row).
  { intros p row Hp Ha Hs. apply list_elem_of_lookup. rewrite <- Hperm.
    apply (ranking_rows_elem_of t rows row Hrows). exists p. tauto. }
  split; [exact (Hin p1 row1 Hp1 Ha1 Hs1)|].
  split; [exact (Hin p2 row2 Hp2 Ha2 Hs2)|].
  intros i j Hi Hj.
  destruct (Nat.lt_trichotomy i j) as [Hij | [Hij | Hij]]; [exact Hij | |].
  - subst j. rewrite Hi in Hj. injection Hj as ->. lia.
  - pose proof (StronglySorted_lookup _ _ Hsorted j i _ _ Hij Hj Hi) as Hle.
    unfold score_desc in Hle. lia.
Qed.

(** C2. The effectiveness score of a pattern is usage_count × 2 + frequency
    (whenever the INTEGER arithmetic does not overflow, and a score that is
    produced is always that number); every answer of the view holds exactly
    the active patterns, each with that score, ordered by descending score;
    the view does answer when the scores are in range; and a pattern with
    (usage_count, frequency) = (5, 1) scores 11, one with (1, 5) scores 7,
    and in every answer of the view the first stands ahead of the second. *)
Theorem pattern_effectiveness_ranking_by_score :
  (forall p,
     in_int4 (usage_count p * 2) ->
     in_int4 (usage_count p * 2 + frequency p) ->
     effectiveness_score p = Some (usage_count p * 2 + frequency p)%Z) /\
  (forall p s, effectiveness_score p = Some s ->
     s = (usage_count p * 2 + frequency p)%Z) /\
  (forall t r, ranking_result t r ->
     StronglySorted score_desc r /\
     (forall row, row ∈ r <->
        exists p, p ∈ t /\ is_active p = true /\ select_row p = Some row) /\
     (forall row, row ∈ r ->
        r_effectiveness_score row =
          (r_usage_count row * 2 + r_frequency row)%Z /\
        r_is_active row = true)) /\
  (forall t,
     (forall p, p ∈ t -> is_active p = true ->
        in_int4 (usage_count p * 2) /\
        in_int4 (usage_count p * 2 + frequency p)) ->
     exists r, pattern_effectiveness_ranking t = Some r /\ ranking_result t r) /\
  (forall p1 p2,
     usage_count p1 = 5%Z -> frequency p1 = 1%Z ->
     usage_count p2 = 1%Z -> frequency p2 = 5%Z ->
     effectiveness_score p1 = Some 11%Z /\
     effectiveness_score p2 = Some 7%Z /\
     forall t r,
       p1 ∈ t -> p2 ∈ t -> is_active p1 = true -> is_active p2 = true ->
       ranking_result t r ->
       exists row1 row2,
         select_row p1 = Some row1 /\ select_row p2 = Some row2 /\
         ranks_ahead r row1 row2).
Proof.
  split; [exact effectiveness_score_in_range|].
  split; [exact effectiveness_score_inv|].
  split.
  { intros t r Hres. pose proof Hres as (rows & Hrows & Hperm & Hsorted).
    split; [exact Hsorted|].
    assert (Hmem : forall row, row ∈ r <->
              exists p, p ∈ t /\ is_active p = true /\ select_row p = Some row).
    { intros row. rewrite <- Hperm. apply ranking_rows_elem_of. exact Hrows. }
    split; [exact Hmem|].
    intros row Hin. apply Hmem in Hin. destruct Hin as (p & _ & Hact & Hsel).
    apply select_row_inv in Hsel.
    destruct Hsel as (-> & -> & -> & -> & _). auto. }
  split.
  { intros t Hrange. destruct (ranking_rows_total t Hrange) as [rows Hrows].
    exists (merge_sort score_desc rows). split.
    - unfold pattern_effectiveness_ranking. rewrite Hrows. reflexivity.
    - apply merge_sort_ranking_result. exact Hrows. }
  intros p1 p2 Hu1 Hf1 Hu2 Hf2.
  assert (Hs1 : effectiveness_score p1 = Some 11%Z).
  { unfold effectiveness_score. rewrite Hu1, Hf1. reflexivity. }
  assert (Hs2 : effectiveness_score p2 = Some 7%Z).
  { unfold effectiveness_score. rewrite Hu2, Hf2. reflexivity. }
  split; [exact Hs1|]. split; [exact Hs2|].
  intros t r Hp1 Hp2 Ha1 Ha2 Hres.
  destruct (select_row p1) as [row1|] eqn:Hr1;
    [|unfold select_row in Hr1; rewrite Hs1 in Hr1; discriminate].
  destruct (select_row p2) as [row2|] eqn:Hr2;
    [|unfold select_row in Hr2; rewrite Hs2 in Hr2; discriminate].
  exists row1, row2. split; [reflexivity|]. split; [reflexivity|].
  apply (ranking_result_ahead t r p1 p2); try assumption.
  apply select_row_inv in Hr1. apply select_row_inv in Hr2.
  destruct Hr1 as (-> & _). destruct Hr2 as (-> & _). lia.
Qed.

Lemma pattern_effectiveness_ranking_by_score_witness :
  let p1 := sample_pattern 1 "Z" "a" 5 1 None in
  let p2 := sample_pattern 2 "E" "b" 1 5 None in
  effectiveness_score p1 = Some 11%Z /\
  effectiveness_score p2 = Some 7%Z /\
  exists r row1 row2,
    pattern_effectiveness_ranking [p2; p1] = Some r /\
    select_row p1 = Some row1 /\ select_row p2 = Some row2 /\
    ranks_ahead r row1 row2.
Proof.
  intros p1 p2.
  destruct (proj2 (proj2 (proj2 (proj2 pattern_effectiveness_ranking_by_score)))
              p1 p2 eq_refl eq_refl eq_refl eq_refl) as (H1 & H2 & Hrank).
  split; [exact H1|]. split; [exact H2|].
  destruct (ranking_rows [p2; p1]) as [rows|] eqn:Hrows; [|discriminate].
  destruct (Hrank [p2; p1] (merge_sort score_desc rows))
    as (row1 & row2 & Hr1 & Hr2 & Hahead).
  - apply list_elem_of_In. simpl. auto.
  - apply list_elem_of_In. simpl. auto.
  - reflexivity.
  - reflexivity.
  - apply merge_sort_ranking_result. exact Hrows.
  - exists (merge_sort score_desc rows), row1, row2.
    split; [|auto].
    unfold pattern_effectiveness_ranking. rewrite Hrows. reflexivity.
Defined.

(** *** The unique index *)

Lemma same_triple_iff (o c s : string) (p : error_pattern) :
  same_triple o c s p = true <-> triple p = (o, c, s).
Proof.
  unfold same_triple, triple. rewrite !andb_true_iff, !String.eqb_eq.
  split; [intros [[-> ->] ->]; reflexivity | intros [= -> -> ->]; auto].
Qed.

Lemma existsb_same_triple (o c s : string) (t : list error_pattern) :
  existsb (same_triple o c s) t = true <-> (o, c, s) ∈ triple <$> t.
Proof.
  rewrite existsb_exists, list_elem_of_fmap. split.
  - intros (p & Hp & Hs). exists p. apply same_triple_iff in Hs.
    split; [congruence | apply list_elem_of_In; exact Hp].
  - intros (p & Hs & Hp). exists p.
    split; [apply list_elem_of_In; exact Hp | apply same_triple_iff; congruence].
Qed.

Lemma record_existing_triples (now : Z) (o c s : string)
  (t : list error_pattern) :
  triple <$> ((fun p => if same_triple o c s p then bump_frequency now p else p)
                <$> t) = triple <$> t.
Proof.
  rewrite <- list_fmap_compose. apply list_fmap_ext. intros i p _. simpl.
  destruct (same_triple o c s p); reflexivity.
Qed.

Lemma NoDup_triples_snoc (row : error_pattern) (t : list error_pattern) :
  NoDup (triple <$> t) -> triple row ∉ triple <$> t ->
  NoDup (triple <$> (t ++ [row])).
Proof.
  intros Hnd Hnin. rewrite fmap_app. apply NoDup_app.
  split; [exact Hnd|]. split.
  - intros x Hx Hx'. simpl in Hx'. apply list_elem_of_singleton in Hx'.
    subst x. contradiction.
  - simpl. apply NoDup_singleton.
Qed.

Lemma conflicts_false (row : error_pattern) (t : list error_pattern) :
  conflicts row t = false -> triple row ∉ triple <$> t.
Proof.
  unfold conflicts. intros H Hin.
  apply (existsb_same_triple (original row) (corrected row) (source row)) in Hin.
  congruence.
Qed.

Lemma reachable_unique (t : list error_pattern) :
  reachable t -> idx_patterns_unique t.
Proof.
  unfold idx_patterns_unique.
  induction 1 as [|row t t' Hr IH Hins|row t Hr IH|new_id now o c s cat rsn t Hr IH].
  - constructor.
  - unfold insert in Hins. destruct (conflicts row t) eqn:Hc; [discriminate|].
    injection Hins as <-. apply NoDup_triples_snoc; [exact IH|].
    apply conflicts_false. exact Hc.
  - unfold insert_on_conflict_do_nothing.
    destruct (conflicts row t) eqn:Hc; [exact IH|].
    apply NoDup_triples_snoc; [exact IH|]. apply conflicts_false. exact Hc.
  - unfold record. destruct (existsb (same_triple o c s) t) eqn:He.
    + rewrite record_existing_triples. exact IH.
    + apply NoDup_triples_snoc; [exact IH|].
      change (triple (new_pattern new_id now o c s cat rsn)) with (o, c, s).
      intros Hin. apply existsb_same_triple in Hin. congruence.
Qed.

Lemma filter_triple_none (o c s : string) (t : list error_pattern) :
  (o, c, s) ∉ triple <$> t ->
  filter (fun p => triple p = (o, c, s)) t = [].
Proof.
  induction t as [|p t IH]; intros Hnin; [reflexivity|].
  rewrite fmap_cons, not_elem_of_cons in Hnin. destruct Hnin as [Hp Ht].
  rewrite filter_cons, decide_False by congruence. exact (IH Ht).
Qed.

Lemma fmap_bump_none (now : Z) (o c s : string) (t : list error_pattern) :
  existsb (same_triple o c s) t = false ->
  (fun p => if same_triple o c s p then bump_frequency now p else p) <$> t = t.
Proof.
  induction t as [|p t IH]; simpl; [auto|].
  intros H. apply orb_false_iff in H. destruct H as [Hp Ht].
  rewrite Hp. f_equal. exact (IH Ht).
Qed.

Lemma same_triple_new (new_id : positive) (now : Z) (o c s : string)
  (cat rsn : option string) :
  same_triple o c s (new_pattern new_id now o c s cat rsn) = true.
Proof. apply same_triple_iff. reflexivity. Qed.

(** C3. Any two distinct rows of a table that evolved from the empty table
    through inserts, conflict-ignoring inserts and [record] differ in their
    (original, corrected, source) triple; recording a triple that is
    present keeps the number of rows and adds one to the frequency of the
    row that holds it, leaving the other rows alone; and recording a triple
    twice in a table that did not hold it leaves exactly one row with that
    triple, whose frequency is 2. *)
Theorem error_patterns_triple_unique :
  (forall t, reachable t ->
     idx_patterns_unique t /\
     forall i j p q, t !! i = Some p -> t !! j = Some q -> i <> j ->
                     triple p <> triple q) /\
  (forall t new_id now o c s cat rsn,
     reachable t -> (o, c, s) ∈ triple <$> t ->
     let t' := record new_id now o c s cat rsn t in
     length t' = length t /\
     forall i p, t !! i = Some p ->
       (triple p = (o, c, s) ->
          exists p', t' !! i = Some p' /\ triple p' = triple p /\
                     id p' = id p /\
                     frequency p' = (frequency p + 1)%Z) /\
       (triple p <> (o, c, s) -> t' !! i = Some p)) /\
  (forall t id1 now1 cat1 rsn1 id2 now2 cat2 rsn2 o c s,
     reachable t -> (o, c, s) ∉ triple <$> t ->
     let t2 := record id2 now2 o c s cat2 rsn2
                 (record id1 now1 o c s cat1 rsn1 t) in
     length t2 = S (length t) /\
     exists row, filter (fun p => triple p = (o, c, s)) t2 = [row] /\
                 frequency row = 2%Z).
Proof.
  split; [|split].
  - intros t Hr. apply reachable_unique in Hr. split; [exact Hr|].
    intros i j p q Hi Hj Hij Heq. apply Hij.
    apply (NoDup_lookup _ i j (triple p) Hr).
    + rewrite list_lookup_fmap, Hi. reflexivity.
    + rewrite list_lookup_fmap, Hj, Heq. reflexivity.
  - intros t new_id now o c s cat rsn Hr Hin t'. subst t'.
    apply existsb_same_triple in Hin. unfold record. rewrite Hin.
    split; [apply length_fmap|].
    intros i p Hi. rewrite list_lookup_fmap, Hi. simpl. split.
    + intros Hp. apply same_triple_iff in Hp. rewrite Hp.
      eexists. split; [reflexivity|]. auto.
    + intros Hp. destruct (same_triple o c s p) eqn:Hs; [|reflexivity].
      apply same_triple_iff in Hs. contradiction.
  - intros t id1 now1 cat1 rsn1 id2 now2 cat2 rsn2 o c s Hr Hnin t2. subst t2.
    assert (Hex : existsb (same_triple o c s) t = false).
    { destruct (existsb (same_triple o c s) t) eqn:He; [|reflexivity].
      apply existsb_same_triple in He. contradiction. }
    assert (Heq : record id2 now2 o c s cat2 rsn2
                    (record id1 now1 o c s cat1 rsn1 t) =
                  t ++ [bump_frequency now2
                          (new_pattern id1 now1 o c s cat1 rsn1)]).
    { unfold record at 2. rewrite Hex. unfold record.
      rewrite existsb_app. simpl. rewrite same_triple_new, orb_true_r.
      rewrite fmap_app, (fmap_bump_none now2 _ _ _ _ Hex). simpl.
      rewrite same_triple_new. reflexivity. }
    rewrite Heq. split.
    + rewrite length_app. simpl. lia.
    + exists (bump_frequency now2 (new_pattern id1 now1 o c s cat1 rsn1)).
      split; [|reflexivity].
      rewrite filter_app, (filter_triple_none o c s t Hnin), app_nil_l.
      rewrite filter_cons, decide_True by reflexivity. reflexivity.
Qed.

Lemma error_patterns_triple_unique_witness :
  reachable [] /\
  exists row,
    filter (fun p => triple p = ("Z", "a", "image_pdf"))
      (record 2 1 "Z" "a" "image_pdf" None None
         (record 1 0 "Z" "a" "image_pdf" (Some "ocr") None [])) = [row] /\
    frequency row = 2%Z.
Proof.
  split; [exact reach_empty|].
  destruct (proj2 (proj2 error_patterns_triple_unique)
              [] 1%positive 0%Z (Some "ocr") None 2%positive 1%Z None None
              "Z" "a" "image_pdf" reach_empty) as [_ H].
  - apply not_elem_of_nil.
  - exact H.
Defined.

(** *** Building the prompt *)

#[global] Instance more_recent_trans : Transitive more_recent.
Proof. intros [x|] [y|] [z|]; simpl; try tauto; lia. Qed.

#[global] Instance prompt_order_total : Total prompt_order.
Proof.
  intros a b. unfold prompt_order.
  destruct (Z.lt_trichotomy (r_effectiveness_score a) (r_effectiveness_score b))
    as [H | [H | H]]; [right; left; exact H | | left; left; exact H].
  destruct (r_last_used a) as [x|], (r_last_used b) as [y|]; simpl.
  - destruct (Z.le_ge_cases x y); [right | left]; right; split; auto.
  - left. right. split; auto.
  - right. right. split; auto.
  - left. right. split; auto.
Qed.

#[global] Instance prompt_order_trans : Transitive prompt_order.
Proof.
  intros a b c [H1 | [H1 M1]] [H2 | [H2 M2]]; unfold prompt_order.
  - left. lia.
  - left. lia.
  - left. lia.
  - right. split; [congruence|]. exact (more_recent_trans _ _ _ M1 M2).
Qed.

Lemma prompt_order_score_desc (a b : ranking_row) :
  prompt_order a b -> score_desc a b.
Proof. unfold prompt_order, score_desc. lia. Qed.

Lemma StronglySorted_impl {A} (R1 R2 : relation A) (l : list A) :
  (forall a b, R1 a b -> R2 a b) -> StronglySorted R1 l -> StronglySorted R2 l.
Proof.
  intros HR. induction 1 as [|x l Hl IH Hx]; constructor; [exact IH|].
  eapply Forall_impl; [exact Hx|]. intros y. apply HR.
Qed.

(** C6. [buildPrompt(source, limit)] answers with at most [limit] rows, all
    of them active patterns of the source asked for, ordered by descending
    effectiveness; of two rows with equal effectiveness the one used more
    recently stands first; and the rows are the top ones: together with the
    rows left out they are all the active patterns of that source, in
    ranking order, and nothing is left out unless [limit] rows are
    returned. *)
Theorem buildPrompt_top_ranked
  (t : list error_pattern) (src : string) (limit : nat)
  (r : list ranking_row) :
  buildPrompt t src limit = Some r ->
  length r <= limit /\
  StronglySorted score_desc r /\
  (forall row, row ∈ r ->
     r_is_active row = true /\ r_source row = src /\
     r_effectiveness_score row =
       (r_usage_count row * 2 + r_frequency row)%Z /\
     exists p, p ∈ t /\ select_row p = Some row) /\
  (forall i j a b ta tb,
     r !! i = Some a -> r !! j = Some b ->
     r_effectiveness_score a = r_effectiveness_score b ->
     r_last_used a = Some ta -> r_last_used b = Some tb ->
     (tb < ta)%Z -> i < j) /\
  (exists rows rest,
     ranking_rows t = Some rows /\
     r ++ rest ≡ₚ filter (fun row => r_source row = src) rows /\
     StronglySorted prompt_order (r ++ rest) /\
     (rest <> [] -> length r = limit)).
Proof.
  unfold buildPrompt. destruct (ranking_rows t) as [rows|] eqn:Hrows; [|discriminate].
  intros [= <-].
  set (sorted := merge_sort prompt_order
                   (filter (fun row => r_source row = src) rows)).
  assert (Hsorted : StronglySorted prompt_order sorted).
  { apply StronglySorted_merge_sort; apply _. }
  assert (Hperm : sorted ≡ₚ filter (fun row => r_source row = src) rows).
  { apply merge_sort_Permutation. }
  assert (Htake : StronglySorted prompt_order (take limit sorted)).
  { rewrite <- (take_drop limit sorted) in Hsorted.
    apply StronglySorted_app_1_l in Hsorted. exact Hsorted. }
  split; [rewrite length_take; lia|].
  split; [apply (StronglySorted_impl prompt_order); [apply prompt_order_score_desc | exact Htake]|].
  split.
  { intros row Hin. apply elem_of_take in Hin. destruct Hin as (i & Hi & _).
    assert (Hrow : row ∈ sorted) by (apply list_elem_of_lookup; eauto).
    rewrite Hperm in Hrow. apply list_elem_of_filter in Hrow.
    destruct Hrow as [Hsrc Hrow].
    apply (ranking_rows_elem_of t rows row Hrows) in Hrow.
    destruct Hrow as (p & Hp & Hact & Hsel).
    pose proof (select_row_inv p row Hsel) as (He & Hu & Hf & Ha & _).
    rewrite He, Hu, Hf, Ha. eauto 10. }
  split.
  { intros i j a b ta tb Hi Hj Heq Hta Htb Hlt.
    destruct (Nat.lt_trichotomy i j) as [Hij | [Hij | Hij]]; [exact Hij | |].
    - subst j. rewrite Hi in Hj. injection Hj as ->.
      rewrite Hta in Htb. injection Htb as ->. lia.
    - pose proof (StronglySorted_lookup _ _ Htake j i _ _ Hij Hj Hi) as Hord.
      unfold prompt_order in Hord. rewrite Hta, Htb in Hord. simpl in Hord. lia. }
  exists rows, (drop limit sorted). split; [reflexivity|].
  rewrite take_drop. split; [exact Hperm|]. split; [exact Hsorted|].
  intros Hrest. rewrite length_take.
  destruct (Nat.le_gt_cases (length sorted) limit) as [Hle|Hgt]; [|lia].
  rewrite drop_ge in Hrest by exact Hle. contradiction.
Qed.

Lemma buildPrompt_top_ranked_witness :
  let older := sample_pattern 1 "Z" "a" 1 1 (Some 10%Z) in
  let newer := sample_pattern 2 "E" "b" 1 1 (Some 20%Z) in
  let best := sample_pattern 3 "0" "c" 5 1 None in
  exists r, buildPrompt [older; newer; best] "image_pdf" 2 = Some r /\
            r_id <$> r = [3%positive; 2%positive] /\
            StronglySorted score_desc r.
Proof.
  intros older newer best. eexists. split; [reflexivity|].
  split; [reflexivity|].
  apply (buildPrompt_top_ranked [older; newer; best] "image_pdf" 2).
  reflexivity.
Defined.

(** The view alone leaves the order of equally scored rows open: both
    orders of two such rows are answers it may give. *)
Remark view_leaves_ties_open :
  let older := sample_pattern 1 "Z" "a" 1 1 (Some 10%Z) in
  let newer := sample_pattern 2 "E" "b" 1 1 (Some 20%Z) in
  exists ro rn,
    select_row older = Some ro /\ select_row newer = Some rn /\
    ranking_result [older; newer] [ro; rn] /\
    ranking_result [older; newer] [rn; ro].
Proof.
  intros older newer. eexists _, _.
  split; [reflexivity|]. split; [reflexivity|]. split.
  - eexists. split; [reflexivity|]. split; [reflexivity|].
    repeat constructor; unfold score_desc; simpl; lia.
  - eexists. split; [reflexivity|]. split; [apply perm_swap|].
    repeat constructor; unfold score_desc; simpl; lia.
Qed.

(** The sample rows of the schema are inserted with ON CONFLICT DO NOTHING:
    running that insert again changes nothing, the frequency stays at its
    default. *)
Remark seed_insert_twice (row : error_pattern) (t : list error_pattern) :
  insert_on_conflict_do_nothing row (insert_on_conflict_do_nothing row t) =
  insert_on_conflict_do_nothing row t.
Proof.
  unfold insert_on_conflict_do_nothing at 2.
  destruct (conflicts row t) eqn:Hc.
  - unfold insert_on_conflict_do_nothing. rewrite Hc. reflexivity.
  - unfold insert_on_conflict_do_nothing, conflicts.
    rewrite existsb_app. simpl.
    assert (Hs : same_triple (original row) (corrected row) (source row) row
                 = true) by (apply same_triple_iff; reflexivity).
    rewrite Hs, orb_true_r. unfold conflicts in Hc. rewrite Hc. reflexivity.
Qed.

End PatternFacts.

(** ** The classifier *)

Module ClassifierFacts.
Import Classifier.

Lemma length_append (s1 s2 : string) :
  String.length (s1 +:+ s2) = String.length s1 + String.length s2.
Proof. induction s1 as [|a s1 IH]; simpl; [reflexivity | rewrite IH; reflexivity]. Qed.

Lemma length_concat (texts : list string) :
  String.length (foldr String.append "" texts) =
  sum_nat (String.length <$> texts).
Proof.
  induction texts as [|x texts IH]; simpl; [reflexivity|].
  rewrite length_append, IH. reflexivity.
Qed.

Lemma analyze_pdf_sampled (pages : list (option string)) :
  _analyze_pdf pages = Nat.ltb 100 (String.length (sampled_text pages)).
Proof.
  unfold _analyze_pdf, sampled_text. rewrite length_concat.
  rewrite <- list_fmap_compose. reflexivity.
Qed.

(** C8. The classifier looks at the first three pages only and at the
    length of their concatenated text: more than 100 characters make the
    file a digital PDF on the local route, 100 characters or fewer make
    it an image PDF on the remote route. *)
Theorem classify_pdf_threshold (pages : list (option string)) :
  let total := String.length (sampled_text pages) in
  (100 < total -> classify_pdf pages = (digital_pdf, local)) /\
  (total <= 100 -> classify_pdf pages = (image_pdf, remote)) /\
  (total = 100 -> classify_pdf pages = (image_pdf, remote)) /\
  sampled_text pages =
    foldr String.append "" (page_text <$> take 3 pages) /\
  classify_pdf pages = classify_pdf (take 3 pages).
Proof.
  intros total.
  assert (Hgt : 100 < total -> classify_pdf pages = (digital_pdf, local)).
  { intros H. unfold classify_pdf. rewrite analyze_pdf_sampled.
    fold total. apply Nat.ltb_lt in H. rewrite H. reflexivity. }
  assert (Hle : total <= 100 -> classify_pdf pages = (image_pdf, remote)).
  { intros H. unfold classify_pdf. rewrite analyze_pdf_sampled.
    fold total. apply Nat.ltb_ge in H. rewrite H. reflexivity. }
  split; [exact Hgt|]. split; [exact Hle|].
  split; [intros H; apply Hle; lia|].
  split; [reflexivity|].
  unfold classify_pdf, _analyze_pdf. rewrite take_take, Nat.min_id. reflexivity.
Qed.

Lemma classify_pdf_threshold_witness :
  String.length (sampled_text [sample_page 60; None; sample_page 40;
                               sample_page 500]) = 100 /\
  classify_pdf [sample_page 60; None; sample_page 40; sample_page 500] =
    (image_pdf, remote) /\
  classify_pdf [sample_page 60; None; sample_page 41] = (digital_pdf, local).
Proof.
  split; [reflexivity|]. split.
  - pose proof (classify_pdf_threshold
                  [sample_page 60; None; sample_page 40; sample_page 500]) as H.
    cbv zeta in H. destruct H as (_ & H & _). apply H. vm_compute. lia.
  - pose proof (classify_pdf_threshold
                  [sample_page 60; None; sample_page 41]) as H.
    cbv zeta in H. destruct H as (H & _). apply H. vm_compute. lia.
Defined.

End ClassifierFacts.

(** ** The credit check *)

Module CreditsFacts.
Import Credits.

Section CheckCredits.

Variable execSync : string -> option string.
Variable spawn_stdout : string -> list string -> list string.
Variable JSON_parse : string -> option json.
Variable enginePath : string.
Variable path_join : string -> string -> string.

Lemma getPythonCommand_from_None (commands : list string) :
  getPythonCommand_from execSync commands = None <->
  forall cmd out, cmd ∈ commands ->
    execSync (cmd +:+ " --version") = Some out ->
    includes out "Python 3" = false.
Proof.
  induction commands as [|cmd rest IH]; simpl.
  - split; [|reflexivity]. intros _ cmd out Hin. apply elem_of_nil in Hin.
    contradiction.
  - destruct (execSync (cmd +:+ " --version")) as [result|] eqn:Hexec.
    + destruct (includes result "Python 3") eqn:Hinc.
      * split; [discriminate|]. intros H.
        specialize (H cmd result (list_elem_of_here _ _) Hexec). congruence.
      * rewrite IH. split.
        -- intros H c out Hin Hc. apply elem_of_cons in Hin.
           destruct Hin as [->|Hin]; [congruence | eauto].
        -- intros H c out Hin Hc. apply (H c out); [|exact Hc].
           apply list_elem_of_further. exact Hin.
    + rewrite IH. split.
      * intros H c out Hin Hc. apply elem_of_cons in Hin.
        destruct Hin as [->|Hin]; [congruence | eauto].
      * intros H c out Hin Hc. apply (H c out); [|exact Hc].
        apply list_elem_of_further. exact Hin.
Qed.

Lemma getPythonCommand_None :
  getPythonCommand execSync = None <-> ~ python3_found execSync.
Proof.
  unfold getPythonCommand, python3_found. rewrite getPythonCommand_from_None.
  split.
  - intros H (cmd & out & Hin & Hexec & Hinc).
    rewrite (H cmd out Hin Hexec) in Hinc. discriminate.
  - intros H cmd out Hin Hexec.
    destruct (includes out "Python 3") eqn:Hinc; [|reflexivity].
    exfalso. apply H. exists cmd, out. auto.
Qed.

(** C10. Whatever the page count, when no Python 3 interpreter is found,
    or when the credit manager's output is not valid JSON, the
    [check-credits] handler resolves with [has_credits: false]. *)
Theorem check_credits_denies_on_failure (pageCount : Z) :
  (~ python3_found execSync ->
     check_credits execSync spawn_stdout JSON_parse enginePath path_join
       pageCount =
     JObject [("has_credits", JBool false);
              ("message", JString "Python not found")]) /\
  (forall pythonCmd,
     getPythonCommand execSync = Some pythonCmd ->
     JSON_parse (check_output spawn_stdout enginePath path_join
                   pythonCmd pageCount) = None ->
     check_credits execSync spawn_stdout JSON_parse enginePath path_join
       pageCount = JObject [("has_credits", JBool false)]) /\
  (~ python3_found execSync \/
   (exists pythonCmd,
      getPythonCommand execSync = Some pythonCmd /\
      JSON_parse (check_output spawn_stdout enginePath path_join
                    pythonCmd pageCount) = None) ->
   get "has_credits"
     (check_credits execSync spawn_stdout JSON_parse enginePath path_join
        pageCount) = Some (JBool false)).
Proof.
  assert (H1 : ~ python3_found execSync ->
     check_credits execSync spawn_stdout JSON_parse enginePath path_join
       pageCount =
     JObject [("has_credits", JBool false);
              ("message", JString "Python not found")]).
  { intros H. apply getPythonCommand_None in H.
    unfold check_credits. rewrite H. reflexivity. }
  assert (H2 : forall pythonCmd,
     getPythonCommand execSync = Some pythonCmd ->
     JSON_parse (check_output spawn_stdout enginePath path_join
                   pythonCmd pageCount) = None ->
     check_credits execSync spawn_stdout JSON_parse enginePath path_join
       pageCount = JObject [("has_credits", JBool false)]).
  { intros pythonCmd Hcmd Hparse. unfold check_credits. rewrite Hcmd.
    unfold check_output in Hparse. rewrite Hparse. reflexivity. }
  split; [exact H1|]. split; [exact H2|].
  intros [H | (pythonCmd & Hcmd & Hparse)].
  - rewrite (H1 H). reflexivity.
  - rewrite (H2 pythonCmd Hcmd Hparse). reflexivity.
Qed.

(** When the output does parse, the handler passes the parsed value on
    unchanged. *)
Lemma check_credits_passes_result (pageCount : Z) (pythonCmd : string)
  (result : json) :
  getPythonCommand execSync = Some pythonCmd ->
  JSON_parse (check_output spawn_stdout enginePath path_join
                pythonCmd pageCount) = Some result ->
  check_credits execSync spawn_stdout JSON_parse enginePath path_join
    pageCount = result.
Proof.
  intros Hcmd Hparse. unfold check_credits. rewrite Hcmd.
  unfold check_output in Hparse. rewrite Hparse. reflexivity.
Qed.

End CheckCredits.

Lemma check_credits_denies_on_failure_witness :
  get "has_credits"
    (check_credits no_python garbled_stdout strict_parse "/engine"
       (fun a b => a +:+ "/" +:+ b) 12) = Some (JBool false) /\
  get "has_credits"
    (check_credits python3_only garbled_stdout strict_parse "/engine"
       (fun a b => a +:+ "/" +:+ b) 12) = Some (JBool false).
Proof.
  split.
  - apply (check_credits_denies_on_failure no_python garbled_stdout
             strict_parse "/engine" (fun a b => a +:+ "/" +:+ b) 12).
    left. intros (cmd & out & _ & Hexec & _). discriminate.
  - apply (check_credits_denies_on_failure python3_only garbled_stdout
             strict_parse "/engine" (fun a b => a +:+ "/" +:+ b) 12).
    right. exists "python3". split; reflexivity.
Defined.

Section LedgerFacts.

Variable admin_emails : list string.
Variable price_per_page : Z.

Lemma isAdmin_iff (acct : CreditAccount) :
  isAdmin admin_emails acct = true <-> email acct ∈ admin_emails.
Proof.
  unfold isAdmin. rewrite existsb_exists. split.
  - intros (x & Hx & Heq). apply String.eqb_eq in Heq. subst x.
    apply list_elem_of_In. exact Hx.
  - intros H. exists (email acct). split;
      [apply list_elem_of_In; exact H | apply String.eqb_refl].
Qed.

(** C7. For an account whose identity is on the allow-list, whatever the
    number of pages and whatever the balance, the credit check authorizes
    and the debit leaves the account (balance and cumulative use) as it
    was. *)
Theorem admin_always_authorized_never_debited
  (acct : CreditAccount) (pages : Z) :
  email acct ∈ admin_emails ->
  authorized (checkCredits admin_emails price_per_page acct pages) = true /\
  debit admin_emails price_per_page acct pages = acct /\
  credits (debit admin_emails price_per_page acct pages) = credits acct.
Proof.
  intros H. apply isAdmin_iff in H. unfold checkCredits, debit. simpl.
  rewrite H. auto.
Qed.

End LedgerFacts.

Lemma admin_always_authorized_never_debited_witness :
  authorized (checkCredits sample_admins 55 sample_admin_account 1000) = true /\
  debit sample_admins 55 sample_admin_account 1000 = sample_admin_account.
Proof.
  destruct (admin_always_authorized_never_debited sample_admins 55
              sample_admin_account 1000) as (H1 & H2 & _).
  - apply list_elem_of_In. simpl. auto.
  - split; [exact H1 | exact H2].
Defined.

Example includes_python3 : includes "Python 3.11.4" "Python 3" = true.
Proof. reflexivity. Qed.

Example includes_python2 : includes "Python 2.7.18" "Python 3" = false.
Proof. reflexivity. Qed.

Example python3_only_found : getPythonCommand python3_only = Some "python3".
Proof. reflexivity. Qed.

End CreditsFacts.

(** ** The rest of the review session *)

Module ReviewSessionFacts.
Import Review ReviewSession ReviewFacts.

Lemma append_inj_l (p a b : string) : p +:+ a = p +:+ b -> a = b.
Proof.
  induction p as [|c p IH]; simpl; [auto|]. intros [= H]. auto.
Qed.

Lemma replace_not_found (pat rep s : string) :
  Credits.includes s pat = false -> Js.replace pat rep s = s.
Proof.
  induction s as [|c s IH]; cbn [Credits.includes Js.replace].
  - destruct (String.prefix pat ""); [intros; discriminate | reflexivity].
  - destruct (String.prefix pat (String c s)); [intros; discriminate|].
    intros H. rewrite (IH H). reflexivity.
Qed.

Lemma replace_found (pat s : string) :
  Credits.includes s pat = true ->
  exists pre post, forall rep, Js.replace pat rep s = pre +:+ rep +:+ post.
Proof.
  induction s as [|c s IH]; cbn [Credits.includes Js.replace].
  - destruct (String.prefix pat ""); [|intros; discriminate].
    intros _. exists "", (Js.slice (String.length pat) ""). reflexivity.
  - destruct (String.prefix pat (String c s)).
    + intros _. exists "", (Js.slice (String.length pat) (String c s)).
      reflexivity.
    + intros H. destruct (IH H) as (pre & post & Hrep).
      exists (String c pre), post. intros rep. rewrite Hrep. reflexivity.
Qed.

(** X1. The review record is written beside the candidates file, under
    another name, exactly when the name of the reviewed file contains
    ".html"; for a name without ".html" both paths are the same file. *)
Theorem review_path_and_corrections_path (env : Env) (filename : string) :
  (Credits.includes filename ".html" = true ->
     reviewPath env filename <>
     correctionsPath (reviewFolderPath env) filename) /\
  (Credits.includes filename ".html" = false ->
     reviewPath env filename =
     correctionsPath (reviewFolderPath env) filename).
Proof.
  unfold reviewPath, correctionsPath. split.
  - intros H Heq. destruct (replace_found ".html" filename H)
      as (pre & post & Hrep).
    rewrite !Hrep in Heq.
    apply append_inj_l in Heq. apply append_inj_l in Heq.
    apply append_inj_l in Heq. simpl in Heq. discriminate.
  - intros H. rewrite !replace_not_found by exact H. reflexivity.
Qed.

Lemma review_path_and_corrections_path_witness :
  reviewPath sample_env "a.html" <> correctionsPath "/out" "a.html" /\
  reviewPath sample_env "a.htm" = correctionsPath "/out" "a.htm".
Proof.
  split.
  - apply (proj1 (review_path_and_corrections_path sample_env "a.html")).
    reflexivity.
  - apply (proj2 (review_path_and_corrections_path sample_env "a.htm")).
    reflexivity.
Defined.

(** *** Editing a candidate *)

Lemma currentValue_edited (st : CorrectionState) (index : nat)
  (c : Correction) (v : string) :
  is_edited (decisions st) index v -> currentValue st index c = Some v.
Proof.
  unfold is_edited, currentValue. intros ->. rewrite isEdited_edited.
  reflexivity.
Qed.

(** X2. Editing a candidate: for an index without candidate nothing
    happens; a cancelled dialog, or an answer equal to the value offered,
    changes nothing; any other answer is stored as the edited value of
    that candidate alone, it is the value the dialog offers next time, and
    giving it again changes nothing. *)
Theorem handleCorrectionEdit_stores_new_value
  (prompt : string -> option string -> option string)
  (index : nat) (st : CorrectionState) :
  (corrections st !! index = None ->
     handleCorrectionEdit prompt index st = (st, [])) /\
  (forall c, corrections st !! index = Some c ->
     let current := currentValue st index c in
     let answer := prompt "수정할 값을 입력하세요:" current in
     (answer = None \/ answer = current ->
        handleCorrectionEdit prompt index st = (st, [])) /\
     (forall v, answer = Some v -> Some v <> current ->
        let st' := fst (handleCorrectionEdit prompt index st) in
        is_edited (decisions st') index v /\
        (forall j, j <> index -> decisions st' !! j = decisions st !! j) /\
        corrections st' = corrections st /\
        currentFile st' = currentFile st /\
        currentValue st' index c = Some v /\
        forall again,
          again "수정할 값을 입력하세요:" (Some v) = Some v ->
          handleCorrectionEdit again index st' = (st', []))).
Proof.
  split.
  - intros H. unfold handleCorrectionEdit. rewrite H. reflexivity.
  - intros c Hc current answer. split.
    + intros H. unfold handleCorrectionEdit. rewrite Hc.
      fold current. fold answer.
      destruct H as [H | H].
      * rewrite H. reflexivity.
      * destruct answer as [v|] eqn:Ha; [|reflexivity].
        rewrite decide_True by exact H. reflexivity.
    + intros v Hv Hne st'.
      assert (Hst' : st' = set_decisions st
                (<[index := "edited:" +:+ v]> (decisions st))).
      { subst st'. unfold handleCorrectionEdit. rewrite Hc.
        fold current. fold answer. rewrite Hv.
        rewrite decide_False by exact Hne. reflexivity. }
      assert (Hed : is_edited (decisions st') index v).
      { rewrite Hst'. unfold is_edited. simpl. apply lookup_insert_eq. }
      split; [exact Hed|].
      split; [intros j Hj; rewrite Hst'; simpl; apply lookup_insert_ne;
              congruence|].
      split; [rewrite Hst'; reflexivity|].
      split; [rewrite Hst'; reflexivity|].
      split; [apply currentValue_edited; exact Hed|].
      intros again Hagain. unfold handleCorrectionEdit.
      replace (corrections st') with (corrections st)
        by (rewrite Hst'; reflexivity).
      rewrite Hc, (currentValue_edited st' index c v Hed), Hagain.
      rewrite decide_True by reflexivity. reflexivity.
Qed.

Lemma handleCorrectionEdit_stores_new_value_witness :
  let st' := fst (handleCorrectionEdit (fun _ _ => Some "B") 1 sample_partial) in
  is_edited (decisions st') 1 "B" /\
  handleCorrectionEdit (fun _ _ => Some "B") 1 st' = (st', []) /\
  handleCorrectionEdit (fun _ _ => Some "B") 7 sample_partial =
    (sample_partial, []).
Proof.
  intros st'.
  pose proof (handleCorrectionEdit_stores_new_value
                (fun _ _ => Some "B") 1 sample_partial) as [_ H].
  specialize (H (sample_correction "E" "b") eq_refl).
  cbv zeta in H. destruct H as [_ H].
  specialize (H "B" eq_refl ltac:(discriminate)).
  destruct H as (H1 & _ & _ & _ & _ & H2).
  split; [exact H1|]. split; [apply H2; reflexivity|].
  apply (handleCorrectionEdit_stores_new_value (fun _ _ => Some "B") 7
           sample_partial).
  reflexivity.
Defined.

(** *** Loading a file *)

Lemma forwarded_indices_empty (k n : nat) : forwarded_indices ∅ k n = [].
Proof.
  revert k. induction n as [|n IH]; intros k; [reflexivity|].
  rewrite forwarded_indices_cons, IH. reflexivity.
Qed.

Lemma to_learn_undecided (st : CorrectionState) (cf : string) :
  decisions st = ∅ -> to_learn st cf = [].
Proof.
  intros Hd. pose proof (to_learn_forwards cf st) as HF.
  rewrite Hd, forwarded_indices_empty in HF.
  apply Forall2_nil_inv_l in HF. exact HF.
Qed.

(** X3. Loading the candidates of a file starts a fresh session: the file
    is selected, its candidates are there and none is decided, so the
    progress shows 0 of n; a save right after the load writes every
    candidate as 'pending' and hands nothing to the learning collector. *)
Theorem loadCorrectionsForFile_then_save
  (env : Env) (readJsonFile : string -> ReadJson) (filename : string)
  (cs : list Correction) (st : CorrectionState) :
  filename <> "" ->
  readJsonFile (correctionsPath (reviewFolderPath env) filename) =
    ReadObject (Some cs) ->
  let st' := fst (loadCorrectionsForFile (reviewFolderPath env)
                    readJsonFile filename st) in
  writeJsonFile env (reviewPath env filename)
    (review_record env st' filename) = Resolved ->
  currentFile st' = Some filename /\
  corrections st' = cs /\
  decisions st' = ∅ /\
  files st' = files st /\
  updateReviewProgress st' = (0, length cs) /\
  saveCorrectionReview env st' =
    [EWriteJsonFile (reviewPath env filename)
       (review_record env st' filename)] ++ save_reported /\
  forwarded (saveCorrectionReview env st') = [] /\
  length (rr_decisions (review_record env st' filename)) = length cs /\
  forall e, e ∈ rr_decisions (review_record env st' filename) ->
            entry_decision e = "pending" /\ entry_edited_value e = None.
Proof.
  intros Hne Hread st' Hw.
  assert (Hst' : st' = {| files := files st; currentFile := Some filename;
                          corrections := cs; decisions := ∅;
                          totalUncertain := totalUncertain st |}).
  { subst st'. unfold loadCorrectionsForFile.
    destruct (String.eqb_spec filename ""); [contradiction|].
    rewrite Hread. reflexivity. }
  assert (Hcf : currentFile st' = Some filename) by (rewrite Hst'; reflexivity).
  assert (Hd : decisions st' = ∅) by (rewrite Hst'; reflexivity).
  assert (Hcs : corrections st' = cs) by (rewrite Hst'; reflexivity).
  assert (Hl : to_learn st' filename = []) by (apply to_learn_undecided; exact Hd).
  split; [exact Hcf|]. split; [exact Hcs|]. split; [exact Hd|].
  split; [rewrite Hst'; reflexivity|].
  split; [unfold updateReviewProgress; rewrite Hd, Hcs, map_size_empty;
          reflexivity|].
  assert (Htr : saveCorrectionReview env st' =
            [EWriteJsonFile (reviewPath env filename)
               (review_record env st' filename)] ++ save_reported).
  { rewrite (saveCorrectionReview_selected env st' filename Hcf Hne), Hw, Hl.
    reflexivity. }
  split; [exact Htr|].
  split; [rewrite Htr; reflexivity|].
  split; [rewrite review_record_length, Hcs; reflexivity|].
  intros e He. apply list_elem_of_lookup in He. destruct He as [i Hi].
  assert (Hlt : i < length (corrections st')).
  { rewrite <- (review_record_length env st' filename).
    apply lookup_lt_Some in Hi. exact Hi. }
  apply lookup_lt_is_Some in Hlt. destruct Hlt as [c Hc].
  rewrite (review_record_lookup env st' filename i c Hc) in Hi.
  injection Hi as <-.
  assert (Hu : undecided (decisions st') i).
  { unfold undecided. rewrite Hd. apply lookup_empty. }
  rewrite (decision_at_undecided _ _ Hu). split; reflexivity.
Qed.

Lemma loadCorrectionsForFile_then_save_witness :
  let read := fun _ => ReadObject (Some (corrections sample_partial)) in
  let st' := fst (loadCorrectionsForFile "/out" read "b.html" sample_decided) in
  updateReviewProgress st' = (0, 3) /\
  forwarded (saveCorrectionReview sample_env st') = [].
Proof.
  intros read st'.
  pose proof (loadCorrectionsForFile_then_save sample_env read "b.html"
                (corrections sample_partial) sample_decided
                ltac:(discriminate) eq_refl eq_refl) as H.
  destruct H as (_ & _ & _ & _ & H1 & _ & H2 & _).
  split; [exact H1 | exact H2].
Defined.

(** X4. A load that cannot deliver candidates does not start a session:
    when the read resolves with null or with an object without
    candidates, the session stays as it was; when the read throws, the
    candidates are dropped but the file selected before and its decisions
    stay, so that a save then writes a record without entries for the
    file selected before and hands nothing to the collector. *)
Theorem loadCorrectionsForFile_without_candidates
  (env : Env) (readJsonFile : string -> ReadJson) (filename : string)
  (st : CorrectionState) :
  filename <> "" ->
  let load := loadCorrectionsForFile (reviewFolderPath env)
                readJsonFile filename st in
  let answer := readJsonFile (correctionsPath (reviewFolderPath env) filename) in
  (answer = ReadNull \/ answer = ReadObject None -> load = (st, [])) /\
  (answer = ReadThrows ->
     corrections (fst load) = [] /\
     currentFile (fst load) = currentFile st /\
     decisions (fst load) = decisions st /\
     forall old,
       currentFile st = Some old -> old <> "" ->
       writeJsonFile env (reviewPath env old)
         (review_record env (fst load) old) = Resolved ->
       rr_decisions (review_record env (fst load) old) = [] /\
       saveCorrectionReview env (fst load) =
         [EWriteJsonFile (reviewPath env old)
            (review_record env (fst load) old)] ++ save_reported).
Proof.
  intros Hne load answer. subst load. unfold loadCorrectionsForFile.
  destruct (String.eqb_spec filename ""); [contradiction|].
  fold answer. split.
  - intros [H | H]; rewrite H; reflexivity.
  - intros H. rewrite H. simpl.
    split; [reflexivity|]. split; [reflexivity|]. split; [reflexivity|].
    intros old Hold Holdne Hw.
    split; [reflexivity|].
    set (st' := {| files := files st; currentFile := currentFile st;
                   corrections := []; decisions := decisions st;
                   totalUncertain := totalUncertain st |}) in *.
    rewrite (saveCorrectionReview_selected env st' old Hold Holdne), Hw.
    reflexivity.
Qed.

Lemma loadCorrectionsForFile_without_candidates_witness :
  let load := loadCorrectionsForFile "/out" (fun _ => ReadThrows) "b.html"
                sample_decided in
  currentFile (fst load) = Some "a.html" /\
  corrections (fst load) = [] /\
  loadCorrectionsForFile "/out" (fun _ => ReadNull) "b.html" sample_decided =
    (sample_decided, []).
Proof.
  intros load.
  pose proof (loadCorrectionsForFile_without_candidates sample_env
                (fun _ => ReadThrows) "b.html" sample_decided
                ltac:(discriminate)) as H.
  cbv zeta in H. destruct H as [_ H]. destruct (H eq_refl) as (H1 & H2 & _).
  split; [exact H2|]. split; [exact H1|].
  apply (loadCorrectionsForFile_without_candidates sample_env
           (fun _ => ReadNull) "b.html" sample_decided ltac:(discriminate)).
  left. reflexivity.
Defined.

(** *** The progress counter *)

Lemma confirmAll_dom (st : CorrectionState) :
  (forall i, is_Some (decisions st !! i) -> i < length (corrections st)) ->
  dom (decisions (fst (confirmAllCorrections st))) =
  (set_seq 0 (length (corrections st)) : gset nat).
Proof.
  intros Hdom. apply set_eq. intros i.
  rewrite elem_of_dom, elem_of_set_seq. simpl.
  rewrite confirmAll_loop_lookup. case_decide as Hi.
  - split; [lia|]. intros _.
    destruct (Js.truthy (decisions st !! i)) eqn:Ht.
    + destruct (decisions st !! i); [eauto | discriminate].
    + eauto.
  - split; [|lia]. intros H. apply Hdom in H. lia.
Qed.

(** X5. The progress counter counts the candidates that have a decision:
    recording a decision for a candidate that has none raises it by one,
    recording one for a candidate that has one leaves it, and after
    "confirm all" it shows all candidates as reviewed (the decisions being
    those of candidates of the file). *)
Theorem updateReviewProgress_counts_decisions (st : CorrectionState) :
  (forall index decision,
     decisions st !! index = None ->
     fst (updateReviewProgress
            (fst (handleCorrectionDecision index decision st))) =
     S (fst (updateReviewProgress st))) /\
  (forall index decision,
     is_Some (decisions st !! index) ->
     updateReviewProgress (fst (handleCorrectionDecision index decision st)) =
     updateReviewProgress st) /\
  ((forall i, is_Some (decisions st !! i) -> i < length (corrections st)) ->
     updateReviewProgress (fst (confirmAllCorrections st)) =
     (length (corrections st), length (corrections st))).
Proof.
  split; [|split].
  - intros index decision H. simpl. apply map_size_insert_None. exact H.
  - intros index decision H. unfold updateReviewProgress. simpl.
    rewrite map_size_insert_Some by exact H. reflexivity.
  - intros Hdom. unfold updateReviewProgress.
    rewrite <- (size_dom (D := gset nat)), (confirmAll_dom st Hdom).
    rewrite size_set_seq. reflexivity.
Qed.

Lemma updateReviewProgress_counts_decisions_witness :
  updateReviewProgress sample_partial = (2, 3) /\
  updateReviewProgress (fst (confirmAllCorrections sample_partial)) = (3, 3).
Proof.
  split; [reflexivity|].
  apply (updateReviewProgress_counts_decisions sample_partial).
  intros i [d Hd]. destruct i as [|[|i]]; simpl; try lia.
  unfold sample_partial in Hd. simpl in Hd.
  rewrite !lookup_insert_ne, lookup_empty in Hd by lia. discriminate.
Defined.

(** *** The review log *)

Lemma sum_uncertain_app (fs gs : list FileInfo) :
  sum_uncertain (fs ++ gs) = (sum_uncertain fs + sum_uncertain gs)%Z.
Proof.
  induction fs as [|f fs IH]; simpl; [reflexivity|].
  unfold sum_uncertain in *. simpl. rewrite IH. lia.
Qed.

Lemma handleReviewLog_session (data : ReviewLogData) (st : CorrectionState) :
  let st' := fst (handleReviewLog data st) in
  currentFile st' = currentFile st /\ corrections st' = corrections st /\
  decisions st' = decisions st.
Proof.
  unfold handleReviewLog.
  destruct (String.eqb (rl_type data) "init"); [simpl; auto|].
  destruct (String.eqb (rl_type data) "progress").
  - destruct (rl_status data) as [status|], (rl_uncertain_count data) as [n|];
      simpl; auto.
    destruct (String.eqb status "success" && negb (n =? 0)%Z); simpl; auto.
  - destruct (String.eqb (rl_type data) "complete"); simpl; auto.
Qed.

Lemma handleReviewLog_total (data : ReviewLogData) (st : CorrectionState) :
  totalUncertain st = sum_uncertain (files st) ->
  Forall (fun f => uncertain_count f <> 0%Z) (files st) ->
  let st' := fst (handleReviewLog data st) in
  totalUncertain st' = sum_uncertain (files st') /\
  Forall (fun f => uncertain_count f <> 0%Z) (files st').
Proof.
  intros Hinv Hnz. unfold handleReviewLog.
  destruct (String.eqb (rl_type data) "init"); [simpl; auto|].
  destruct (String.eqb (rl_type data) "progress").
  - destruct (rl_status data) as [status|], (rl_uncertain_count data) as [n|];
      simpl; auto.
    destruct (String.eqb status "success"); simpl; auto.
    destruct (Z.eqb_spec n 0); simpl; auto.
    split.
    + rewrite sum_uncertain_app, Hinv. unfold sum_uncertain. simpl. lia.
    + apply Forall_app. split; [exact Hnz|]. constructor; [exact n0 | constructor].
  - destruct (String.eqb (rl_type data) "complete"); simpl; auto.
Qed.

(** X6. Throughout a review run the number of corrections that need review
    is the sum over the listed files: an 'init' record empties the list
    and the number, each later record keeps the two in step, only files
    with a non-zero count are listed, and the open review session (file,
    candidates, decisions) is never touched by the log. *)
Theorem handleReviewLog_total_is_sum
  (evs : list ReviewLogData) (st : CorrectionState) :
  (totalUncertain st = sum_uncertain (files st) ->
   Forall (fun f => uncertain_count f <> 0%Z) (files st) ->
   totalUncertain (after_review_logs evs st) =
     sum_uncertain (files (after_review_logs evs st)) /\
   Forall (fun f => uncertain_count f <> 0%Z)
     (files (after_review_logs evs st))) /\
  (forall init, rl_type init = "init" ->
     totalUncertain (after_review_logs (init :: evs) st) =
       sum_uncertain (files (after_review_logs (init :: evs) st))) /\
  currentFile (after_review_logs evs st) = currentFile st /\
  corrections (after_review_logs evs st) = corrections st /\
  decisions (after_review_logs evs st) = decisions st.
Proof.
  assert (Hinv : forall evs st,
    totalUncertain st = sum_uncertain (files st) ->
    Forall (fun f => uncertain_count f <> 0%Z) (files st) ->
    totalUncertain (after_review_logs evs st) =
      sum_uncertain (files (after_review_logs evs st)) /\
    Forall (fun f => uncertain_count f <> 0%Z)
      (files (after_review_logs evs st))).
  { clear. intros evs. induction evs as [|data evs IH]; intros st H1 H2.
    - simpl. auto.
    - simpl. destruct (handleReviewLog_total data st H1 H2) as [H1' H2'].
      apply IH; assumption. }
  split; [apply Hinv|]. split.
  - intros init Hinit. simpl. apply Hinv.
    + unfold handleReviewLog. rewrite Hinit. reflexivity.
    + unfold handleReviewLog. rewrite Hinit. simpl. constructor.
  - revert st. induction evs as [|data evs IH]; intros st; [simpl; auto|].
    simpl. destruct (IH (fst (handleReviewLog data st))) as (H1 & H2 & H3).
    destruct (handleReviewLog_session data st) as (G1 & G2 & G3).
    unfold after_review_logs in *. rewrite H1, H2, H3. auto.
Qed.

Lemma handleReviewLog_total_is_sum_witness :
  let evs := [ {| rl_type := "progress"; rl_status := Some "success";
                  rl_file := "b.html"; rl_uncertain_count := Some 4%Z |};
               {| rl_type := "progress"; rl_status := Some "failed";
                  rl_file := "c.html"; rl_uncertain_count := Some 9%Z |} ] in
  totalUncertain (after_review_logs evs sample_partial) = 7%Z /\
  totalUncertain (after_review_logs evs sample_partial) =
    sum_uncertain (files (after_review_logs evs sample_partial)).
Proof.
  intros evs. split; [reflexivity|].
  apply (handleReviewLog_total_is_sum evs sample_partial).
  - reflexivity.
  - repeat constructor; discriminate.
Defined.

(** *** Saving that does not come about *)

(** X7. Nothing is handed to the learning collector unless the review
    record was written: without a selected file only a notice is shown,
    and when writing the record fails the failure is shown with the
    error's message, the collector is not called and the dialog stays
    open. *)
Theorem saveCorrectionReview_learns_only_after_write
  (env : Env) (st : CorrectionState) :
  (Js.truthy (currentFile st) = false ->
     saveCorrectionReview env st = [EAlert "파일을 먼저 선택해주세요."]) /\
  (forall cf message,
     currentFile st = Some cf -> cf <> "" ->
     writeJsonFile env (reviewPath env cf) (review_record env st cf) =
       Rejected message ->
     saveCorrectionReview env st =
       [EWriteJsonFile (reviewPath env cf) (review_record env st cf);
        EAlert ("저장 실패: " +:+ message)]) /\
  (written env (saveCorrectionReview env st) = [] ->
     forwarded (saveCorrectionReview env st) = [] /\
     ECloseModal ∉ saveCorrectionReview env st).
Proof.
  assert (H1 : Js.truthy (currentFile st) = false ->
     saveCorrectionReview env st = [EAlert "파일을 먼저 선택해주세요."]).
  { intros H. unfold saveCorrectionReview. rewrite H. reflexivity. }
  assert (H2 : forall cf message,
     currentFile st = Some cf -> cf <> "" ->
     writeJsonFile env (reviewPath env cf) (review_record env st cf) =
       Rejected message ->
     saveCorrectionReview env st =
       [EWriteJsonFile (reviewPath env cf) (review_record env st cf);
        EAlert ("저장 실패: " +:+ message)]).
  { intros cf message Hcf Hne Hw.
    rewrite (saveCorrectionReview_selected env st cf Hcf Hne), Hw.
    reflexivity. }
  split; [exact H1|]. split; [exact H2|].
  intros Hnone.
  destruct (Js.truthy (currentFile st)) eqn:Ht.
  - destruct (currentFile st) as [cf|] eqn:Hcf; [|discriminate].
    assert (Hne : cf <> "") by (apply JsFacts.truthy_Some; exact Ht).
    destruct (writeJsonFile env (reviewPath env cf) (review_record env st cf))
      as [|message] eqn:Hw.
    + destruct (saved_trace_forwarded env st cf Hcf Hne Hw) as [_ Hwr].
      rewrite Hwr in Hnone. discriminate.
    + rewrite (H2 cf message eq_refl Hne Hw). split; [reflexivity|].
      intros Hin. rewrite !elem_of_cons in Hin.
      destruct Hin as [H|[H|H]]; try discriminate.
      apply elem_of_nil in H. contradiction.
  - rewrite (H1 eq_refl). split; [reflexivity|].
    intros Hin. rewrite !elem_of_cons in Hin.
    destruct Hin as [H|H]; try discriminate.
    apply elem_of_nil in H. contradiction.
Qed.

Lemma saveCorrectionReview_learns_only_after_write_witness :
  let env := {| now := "t"; reviewFolderPath := "/out";
                writeJsonFile := fun _ _ => Rejected "EACCES";
                collectCorrections := fun _ => Resolved |} in
  forwarded (saveCorrectionReview env sample_decided) = [] /\
  saveCorrectionReview env sample_decided =
    [EWriteJsonFile (reviewPath env "a.html")
       (review_record env sample_decided "a.html");
     EAlert ("저장 실패: " +:+ "EACCES")].
Proof.
  intros env.
  destruct (saveCorrectionReview_learns_only_after_write env sample_decided)
    as (_ & H2 & H3).
  split.
  - apply H3. reflexivity.
  - apply (H2 "a.html" "EACCES"); [reflexivity | discriminate | reflexivity].
Defined.

(** *** Confirm all, again *)

Lemma confirmAll_lookup_truthy (st : CorrectionState) (i : nat) :
  i < length (corrections st) ->
  exists s, decisions (fst (confirmAllCorrections st)) !! i = Some s /\
            s <> "" /\
            (decisions st !! i = Some s \/
             (Js.truthy (decisions st !! i) = false /\ s = "confirmed")).
Proof.
  intros Hi. simpl. rewrite confirmAll_loop_lookup.
  rewrite decide_True by lia.
  destruct (Js.truthy (decisions st !! i)) eqn:Ht.
  - destruct (decisions st !! i) as [s|] eqn:Hs; [|discriminate].
    exists s. split; [reflexivity|]. split; [|left; reflexivity].
    apply JsFacts.truthy_Some. exact Ht.
  - exists "confirmed". split; [reflexivity|]. split; [discriminate|].
    right. auto.
Qed.

(** X8. "Confirm all" leaves nothing open and is idempotent: a second
    "confirm all" changes nothing, and a record saved after it has no
    'pending' entry (no decision having been recorded under that very
    word). *)
Theorem confirmAllCorrections_completes
  (env : Env) (st : CorrectionState) (cf : string) :
  fst (confirmAllCorrections (fst (confirmAllCorrections st))) =
    fst (confirmAllCorrections st) /\
  ((forall i, decisions st !! i <> Some "pending") ->
   forall e,
     e ∈ rr_decisions (review_record env (fst (confirmAllCorrections st)) cf) ->
     entry_decision e <> "pending").
Proof.
  split.
  - unfold confirmAllCorrections. cbn [fst]. unfold set_decisions.
    cbn [files currentFile corrections totalUncertain decisions].
    f_equal. apply map_eq. intros i.
    rewrite confirmAll_loop_lookup. case_decide as Hi; [|reflexivity].
    destruct (confirmAll_lookup_truthy st i) as (s & Hs & Hne & _); [lia|].
    simpl in Hs. rewrite Hs. apply JsFacts.truthy_Some in Hne.
    simpl in Hne. simpl. rewrite Hne. reflexivity.
  - intros Hno e He. apply list_elem_of_lookup in He. destruct He as [i Hi].
    remember (fst (confirmAllCorrections st)) as st' eqn:Hst'.
    assert (Hlt : i < length (corrections st')).
    { rewrite <- (review_record_length env st' cf).
      apply lookup_lt_Some in Hi. exact Hi. }
    pose proof Hlt as Hlt'. apply lookup_lt_is_Some in Hlt'.
    destruct Hlt' as [c Hc].
    rewrite (review_record_lookup env st' cf i c Hc) in Hi. injection Hi as <-.
    destruct (confirmAll_lookup_truthy st i) as (s & Hs & Hne & Hfrom).
    { rewrite Hst' in Hlt. exact Hlt. }
    rewrite <- Hst' in Hs.
    unfold decision_at. rewrite Hs.
    unfold review_entry. cbn [entry_decision].
    assert (Hor : Js.or_else (Some s) "pending" = s).
    { simpl. destruct (String.eqb_spec s ""); [contradiction | reflexivity]. }
    rewrite Hor. destruct (isEdited s); [discriminate|].
    intros ->. destruct Hfrom as [Hd | [_ Hd]]; [|discriminate].
    exact (Hno i Hd).
Qed.

Lemma confirmAllCorrections_completes_witness :
  entry_decision <$>
    rr_decisions (review_record sample_env sample_decided "a.html") =
    ["confirmed"; "rejected"; "confirmed"] /\
  forall e,
    e ∈ rr_decisions (review_record sample_env sample_decided "a.html") ->
    entry_decision e <> "pending".
Proof.
  split; [reflexivity|].
  apply (confirmAllCorrections_completes sample_env sample_partial "a.html").
  intros i. unfold sample_partial. simpl.
  destruct i as [|[|i]]; [discriminate | discriminate |].
  rewrite !lookup_insert_ne, lookup_empty by lia. discriminate.
Defined.

End ReviewSessionFacts.

(** ** The conversion progress *)

Module ConversionFacts.
Import Conversion.

Lemma count_cons (f : LogData -> bool) (data : LogData) (evs : list LogData) :
  count f (data :: evs) = ((if f data then 1 else 0) + count f evs)%Z.
Proof. unfold count. simpl. destruct (f data); simpl; lia. Qed.

Lemma after_logs_counters (evs : list LogData) (st : State) :
  processedFiles (after_logs evs st) =
    (processedFiles st + count is_progress evs)%Z /\
  successCount (after_logs evs st) =
    (successCount st + count is_success evs)%Z /\
  failCount (after_logs evs st) =
    (failCount st + (count is_progress evs - count is_success evs))%Z /\
  selectedFolder (after_logs evs st) = selectedFolder st /\
  isConverting (after_logs evs st) = isConverting st.
Proof.
  revert st. induction evs as [|data evs IH]; intros st.
  - unfold count. simpl. repeat split; lia.
  - change (after_logs (data :: evs) st)
      with (after_logs evs (handleConversionLog data st)).
    destruct (IH (handleConversionLog data st)) as (H1 & H2 & H3 & H4 & H5).
    rewrite H1, H2, H3, H4, H5, !count_cons. clear.
    unfold handleConversionLog, is_success, is_progress.
    destruct (String.eqb (type data) "init") eqn:Hinit.
    { apply String.eqb_eq in Hinit. rewrite Hinit. simpl. repeat split; lia. }
    destruct (String.eqb (type data) "progress").
    { destruct (decide (status data = Some "success")) as [Hs|Hs].
      - rewrite bool_decide_eq_true_2 by exact Hs. simpl. repeat split; lia.
      - rewrite bool_decide_eq_false_2 by exact Hs. simpl. repeat split; lia. }
    destruct (String.eqb (type data) "complete"); simpl; repeat split; lia.
Qed.

(** X9. From the start of a conversion on, whatever records arrive, the
    number of processed files is the number of progress records received
    and equals successes plus failures; a progress record counts as a
    success only with status 'success', every other one (a skipped file
    too) counts as a failure; without a selected folder the conversion
    does not start and the counters stay. *)
Theorem handleConversionLog_counters (evs : list LogData) (st : State) :
  (Js.truthy (selectedFolder st) = true ->
     let st' := after_logs evs (startConversion_begin st) in
     processedFiles st' = count is_progress evs /\
     successCount st' = count is_success evs /\
     failCount st' = (count is_progress evs - count is_success evs)%Z /\
     processedFiles st' = (successCount st' + failCount st')%Z /\
     (0 <= failCount st')%Z /\
     isConverting st' = true) /\
  (Js.truthy (selectedFolder st) = false -> startConversion_begin st = st) /\
  (processedFiles st = (successCount st + failCount st)%Z ->
     processedFiles (after_logs evs st) =
     (successCount (after_logs evs st) + failCount (after_logs evs st))%Z).
Proof.
  split; [|split].
  - intros Hsel st'.
    destruct (after_logs_counters evs (startConversion_begin st))
      as (H1 & H2 & H3 & _ & H5).
    fold st' in H1, H2, H3, H5.
    unfold startConversion_begin in H1, H2, H3, H5.
    rewrite Hsel in H1, H2, H3, H5. simpl in H1, H2, H3, H5.
    assert (Hle : (count is_success evs <= count is_progress evs)%Z).
    { clear. induction evs as [|data evs IH]; [unfold count; simpl; lia|].
      rewrite !count_cons.
      destruct (is_success data) eqn:Hs, (is_progress data) eqn:Hp; try lia.
      unfold is_success in Hs. rewrite Hp in Hs. discriminate. }
    repeat split; try lia. exact H5.
  - intros Hsel. unfold startConversion_begin. rewrite Hsel. reflexivity.
  - intros Hinv. destruct (after_logs_counters evs st) as (H1 & H2 & H3 & _).
    lia.
Qed.

Lemma handleConversionLog_counters_witness :
  let st := {| selectedFolder := Some "/docs"; isConverting := false;
               totalFiles := 0; processedFiles := 5; successCount := 1;
               failCount := 1; outputFolder := None |} in
  let evs := [ {| type := "init"; total := 3; status := None;
                  output_folder := None |};
               {| type := "progress"; total := 0; status := Some "success";
                  output_folder := None |};
               {| type := "progress"; total := 0; status := Some "skipped";
                  output_folder := None |} ] in
  processedFiles (after_logs evs (startConversion_begin st)) = 2%Z /\
  failCount (after_logs evs (startConversion_begin st)) = 1%Z.
Proof.
  intros st evs.
  destruct (proj1 (handleConversionLog_counters evs st) eq_refl)
    as (H1 & _ & H3 & _).
  split; [exact H1 | exact H3].
Defined.

End ConversionFacts.

(** ** The guided tour *)

Module TourFacts.
Import Tour.

Section WithPage.

Variable querySelector : string -> bool.

Lemma showTourStep_aligned (fuel : nat) (st : State) :
  0 < fuel -> length tourSteps < fuel + currentTourStep st ->
  exists st',
    showTourStep querySelector fuel (currentTourStep st) st = Some st' /\
    currentTourStep st <= currentTourStep st' /\
    missing_between querySelector (currentTourStep st) (currentTourStep st') /\
    welcome_hidden (view st') = welcome_hidden (view st) /\
    ((showing querySelector st' /\ tourActive st' = tourActive st /\
      visited st' = visited st) \/
     (ended st' /\ length tourSteps <= currentTourStep st')).
Proof.
  revert st. induction fuel as [|fuel IH]; intros st Hpos Hfuel; [lia|].
  simpl. destruct (tourSteps !! currentTourStep st) as [step|] eqn:Hstep.
  - destruct (querySelector (target step)) eqn:Hq.
    + eexists. split; [reflexivity|]. simpl.
      split; [lia|]. split; [intros k s Hk; lia|]. split; [reflexivity|].
      left. split; [|auto]. exists step. simpl.
      repeat split; first [assumption | reflexivity].
    + pose proof (lookup_lt_Some _ _ _ Hstep) as Hlt.
      set (st1 := {| currentTourStep := S (currentTourStep st);
                     tourActive := tourActive st; visited := visited st;
                     view := clear_highlight (view st) |}).
      destruct (IH st1) as (st' & Hrun & Hle & Hmiss & Hw & Hres).
      { lia. }
      { unfold st1. cbn [currentTourStep]. lia. }
      exists st'. split; [exact Hrun|]. simpl in Hle.
      split; [lia|]. split.
      * intros k s Hk Hks. destruct (decide (k = currentTourStep st)) as [->|].
        -- rewrite Hstep in Hks. injection Hks as <-. exact Hq.
        -- apply (Hmiss k s); [simpl; lia | exact Hks].
      * split; [rewrite Hw; reflexivity|].
        destruct Hres as [(Hs & Ha & Hv) | He]; [left | right; exact He].
        split; [exact Hs|]. split; [rewrite Ha | rewrite Hv]; reflexivity.
  - eexists. split; [reflexivity|]. simpl.
    split; [lia|]. split; [intros k s Hk; lia|]. split; [reflexivity|].
    right. split; [repeat split|].
    change (length tourSteps <= currentTourStep st).
    apply lookup_ge_None. exact Hstep.
Qed.

(** X10. The guided tour never gets stuck on a page that lacks some of its
    targets: starting the tour, stepping forward and stepping back always
    come to an end (within the bound on the calls of [showTourStep]) and
    leave the tour either on display at a step whose target is on the
    page, every step skipped on the way having no target, or over and
    marked as visited; stepping forward always moves to a later step and
    from the last step ends the tour with the closing message; stepping
    back at the first step does nothing. *)
Theorem tour_always_lands (st : State) :
  (exists st',
     startTour querySelector st = Some st' /\
     visited st' = true /\ welcome_hidden (view st') = true /\
     missing_between querySelector 0 (currentTourStep st') /\
     ((showing querySelector st' /\ tourActive st' = true) \/
      (ended st' /\ missing_between querySelector 0 (length tourSteps)))) /\
  (exists st' alert,
     nextTourStep querySelector st = Some (st', alert) /\
     currentTourStep st < currentTourStep st' /\
     missing_between querySelector (S (currentTourStep st))
       (currentTourStep st') /\
     ((showing querySelector st' /\ alert = false /\
       tourActive st' = tourActive st) \/
      (ended st' /\ length tourSteps <= currentTourStep st')) /\
     (length tourSteps <= S (currentTourStep st) -> alert = true)) /\
  (currentTourStep st = 0 -> prevTourStep querySelector st = Some st) /\
  (0 < currentTourStep st ->
     exists st',
       prevTourStep querySelector st = Some st' /\
       currentTourStep st - 1 <= currentTourStep st' /\
       (showing querySelector st' \/ ended st')).
Proof.
  split; [|split; [|split]].
  - unfold startTour.
    set (st1 := {| currentTourStep := 0; tourActive := true;
                   visited := visited (hideWelcomeModal st);
                   view := view (hideWelcomeModal st) |}).
    destruct (showTourStep_aligned tour_fuel st1)
      as (st' & Hrun & Hle & Hmiss & Hw & Hres).
    { unfold tour_fuel. lia. }
    { unfold tour_fuel. lia. }
    exists st'. split; [exact Hrun|].
    split.
    { destruct Hres as [(_ & _ & Hv) | ((_ & Hv & _) & _)];
        [rewrite Hv; reflexivity | exact Hv]. }
    split; [rewrite Hw; reflexivity|].
    split; [exact Hmiss|].
    destruct Hres as [(Hs & Ha & _) | (He & Hlen)].
    + left. split; [exact Hs | rewrite Ha; reflexivity].
    + right. split; [exact He|]. intros k step Hk Hstep.
      apply (Hmiss k step); [|exact Hstep]. simpl in *. lia.
  - unfold nextTourStep.
    set (st1 := {| currentTourStep := S (currentTourStep st);
                   tourActive := tourActive st; visited := visited st;
                   view := view st |}).
    destruct (Nat.leb_spec (length tourSteps) (currentTourStep st1)) as [Hlast|Hmore].
    + exists (endTour st1), true. split; [reflexivity|].
      split; [simpl; lia|]. split; [intros k step Hk; simpl in Hk; lia|].
      split; [|reflexivity].
      right. split; [repeat split | exact Hlast].
    + destruct (showTourStep_aligned tour_fuel st1)
        as (st' & Hrun & Hle & Hmiss & Hw & Hres).
      { unfold tour_fuel. lia. }
      { unfold tour_fuel. lia. }
      rewrite Hrun. exists st', false. split; [reflexivity|].
      split; [unfold st1 in Hle; cbn [currentTourStep] in Hle; lia|].
      split; [exact Hmiss|]. split.
      * destruct Hres as [(Hs & Ha & _) | He]; [left | right; exact He].
        split; [exact Hs|]. split; [reflexivity | exact Ha].
      * intros Hlen. unfold st1 in Hmore. cbn [currentTourStep] in Hmore. lia.
  - intros H0. unfold prevTourStep. rewrite H0. reflexivity.
  - intros Hpos. unfold prevTourStep.
    destruct (Nat.ltb_spec 0 (currentTourStep st)) as [_|]; [|lia].
    set (st1 := {| currentTourStep := currentTourStep st - 1;
                   tourActive := tourActive st; visited := visited st;
                   view := view st |}).
    destruct (showTourStep_aligned tour_fuel st1)
      as (st' & Hrun & Hle & _ & _ & Hres).
    { unfold tour_fuel. lia. }
    { unfold tour_fuel. lia. }
    exists st'. split; [exact Hrun|]. split; [exact Hle|].
    destruct Hres as [(Hs & _) | (He & _)]; [left; exact Hs | right; exact He].
Qed.

End WithPage.

Lemma tour_always_lands_witness :
  let page := fun selector => negb (String.eqb selector "#navConvert") in
  prevTourStep page fresh = Some fresh /\
  exists st', startTour page fresh = Some st' /\
              currentTourStep st' = 1 /\ showing page st'.
Proof.
  intros page. split.
  - apply (tour_always_lands page fresh). reflexivity.
  - destruct (proj1 (tour_always_lands page fresh))
      as (st' & Hrun & _ & _ & _ & Hres).
    exists st'. split; [exact Hrun|].
    assert (Hcur : currentTourStep st' = 1).
    { vm_compute in Hrun. injection Hrun as <-. reflexivity. }
    split; [exact Hcur|].
    destruct Hres as [[Hs _] | [He _]]; [exact Hs|].
    vm_compute in Hrun. injection Hrun as <-.
    destruct He as [He _]. discriminate.
Defined.

End TourFacts.

(** ** More handlers of the main process *)

Module HandlersFacts.
Import Credits Handlers.

Section Main.

Variable execSync : string -> option string.
Variable spawn_stdout : string -> list string -> list string.
Variable spawn_output : string -> list string -> list string.
Variable spawn_exit : string -> list string -> string -> option Z.
Variable JSON_parse : string -> option json.
Variable enginePath : string.
Variable path_join : string -> string -> string.

Lemma getPythonCommand_from_Some (commands : list string) (cmd : string) :
  getPythonCommand_from execSync commands = Some cmd <->
  exists pre post, commands = pre ++ cmd :: post /\
    reports_python3 execSync cmd /\
    forall c, c ∈ pre -> ~ reports_python3 execSync c.
Proof.
  unfold reports_python3.
  induction commands as [|c rest IH]; simpl.
  - split; [discriminate|]. intros (pre & post & H & _).
    destruct pre; discriminate.
  - destruct (execSync (c +:+ " --version")) as [result|] eqn:Hexec.
    + destruct (includes result "Python 3") eqn:Hinc.
      * split.
        -- intros [= <-]. exists [], rest. split; [reflexivity|].
           split; [eauto|]. intros x Hx. apply elem_of_nil in Hx. contradiction.
        -- intros (pre & post & Heq & Hrep & Hpre).
           destruct pre as [|p pre]; simpl in Heq.
           ++ congruence.
           ++ injection Heq as <- _. exfalso.
              apply (Hpre c (list_elem_of_here _ _)). eauto.
      * rewrite IH. split.
        -- intros (pre & post & -> & Hrep & Hpre).
           exists (c :: pre), post. split; [reflexivity|]. split; [exact Hrep|].
           intros x Hx. apply elem_of_cons in Hx. destruct Hx as [->|Hx];
             [|auto]. intros (out & Ho & Hi). congruence.
        -- intros (pre & post & Heq & Hrep & Hpre).
           destruct pre as [|p pre]; simpl in Heq.
           ++ injection Heq as -> _. destruct Hrep as (out & Ho & Hi). congruence.
           ++ injection Heq as <- ->. exists pre, post.
              split; [reflexivity|]. split; [exact Hrep|].
              intros x Hx. apply Hpre. apply list_elem_of_further. exact Hx.
    + rewrite IH. split.
      * intros (pre & post & -> & Hrep & Hpre).
        exists (c :: pre), post. split; [reflexivity|]. split; [exact Hrep|].
        intros x Hx. apply elem_of_cons in Hx. destruct Hx as [->|Hx];
          [|auto]. intros (out & Ho & Hi). congruence.
      * intros (pre & post & Heq & Hrep & Hpre).
        destruct pre as [|p pre]; simpl in Heq.
        -- injection Heq as -> _. destruct Hrep as (out & Ho & Hi). congruence.
        -- injection Heq as <- ->. exists pre, post.
           split; [reflexivity|]. split; [exact Hrep|].
           intros x Hx. apply Hpre. apply list_elem_of_further. exact Hx.
Qed.

(** X11. [getPythonCommand] answers with the first of python3, python, py
    whose [--version] output names Python 3: the answer is one of the three
    names, it does report Python 3, and no name before it does; so python3
    is taken whenever it reports Python 3, whatever the other two do. *)
Theorem getPythonCommand_first_match (cmd : string) :
  (getPythonCommand execSync = Some cmd <->
   exists pre post, ["python3"; "python"; "py"] = pre ++ cmd :: post /\
     reports_python3 execSync cmd /\
     forall c, c ∈ pre -> ~ reports_python3 execSync c) /\
  (getPythonCommand execSync = Some cmd ->
     cmd ∈ ["python3"; "python"; "py"]) /\
  (reports_python3 execSync "python3" ->
     getPythonCommand execSync = Some "python3").
Proof.
  split; [apply getPythonCommand_from_Some|]. split.
  - intros H. apply getPythonCommand_from_Some in H.
    destruct H as (pre & post & -> & _). apply elem_of_app. right.
    apply list_elem_of_here.
  - intros H. apply getPythonCommand_from_Some.
    exists [], ["python"; "py"]. split; [reflexivity|]. split; [exact H|].
    intros c Hc. apply elem_of_nil in Hc. contradiction.
Qed.

(** X12. The credit handlers give nothing away on failure: without a
    Python 3 interpreter, or with an output that is not JSON, the balance
    is reported as 0 credits and not administrator, the list of packages
    as empty, and a purchase is either rejected or answered with
    [success: false]. *)
Theorem credit_handlers_fail_closed (packageId : string) :
  let balance := get_credit_balance execSync spawn_stdout JSON_parse
                   enginePath path_join in
  let packages := get_credit_packages execSync spawn_stdout JSON_parse
                    enginePath path_join in
  let purchase := add_credits execSync spawn_stdout JSON_parse
                    enginePath path_join packageId in
  (getPythonCommand execSync = None ->
     get "credits" balance = Some (JNumber 0) /\
     get "is_admin" balance = Some (JBool false) /\
     packages = JObject [("packages", JArray [])] /\
     exists message, purchase = reject message) /\
  (forall pythonCmd,
     getPythonCommand execSync = Some pythonCmd ->
     (forall args, JSON_parse (collect_output (spawn_stdout pythonCmd args))
                   = None) ->
     get "credits" balance = Some (JNumber 0) /\
     get "is_admin" balance = Some (JBool false) /\
     packages = JObject [("packages", JArray [])] /\
     exists value, purchase = resolve value /\
                   get "success" value = Some (JBool false)).
Proof.
  intros balance packages purchase. subst balance packages purchase.
  unfold get_credit_balance, get_credit_packages, add_credits. split.
  - intros H. rewrite H. simpl. eauto 6.
  - intros pythonCmd H Hparse. rewrite H, !Hparse. simpl. eauto 8.
Qed.


(** X14. What the renderer learns from [collect-corrections]: the handler
    never rejects, it reports as count the number of corrections it was
    given and [success] only for exit code 0; a renderer that awaits it as
    its collector therefore logs the corrections as collected and shows no
    warning, also when Python is missing or the collector exits with an
    error. *)
Theorem collect_corrections_never_rejects
  (stringify : list Review.LearnItem -> string)
  (env : Review.Env) (st : Review.CorrectionState) (cf : string) :
  let handler := fun items =>
    collect_corrections execSync spawn_exit enginePath path_join
      (stringify items) (length items) in
  (forall items, exists value,
     handler items = resolve value /\
     (getPythonCommand execSync = None ->
        get "success" value = Some (JBool false)) /\
     (forall pythonCmd, getPythonCommand execSync = Some pythonCmd ->
        get "count" value = Some (JNumber (Z.of_nat (length items))) /\
        (get "success" value = Some (JBool true) <->
         spawn_exit pythonCmd
           [path_join enginePath "error_learning.py"; "collect-batch"]
           (stringify items) = Some 0%Z))) /\
  ((forall items, Review.collectCorrections env items = awaited (handler items)) ->
   Review.currentFile st = Some cf -> cf <> "" ->
   Review.writeJsonFile env (Review.reviewPath env cf)
     (Review.review_record env st cf) = Review.Resolved ->
   Review.saveCorrectionReview env st =
     [Review.EWriteJsonFile (Review.reviewPath env cf)
        (Review.review_record env st cf)] ++
     (if Nat.ltb 0 (length (Review.to_learn st cf))
      then [Review.ECollectCorrections (Review.to_learn st cf);
            Review.ELogCollected (length (Review.to_learn st cf))]
      else []) ++ Review.save_reported).
Proof.
  intros handler. split.
  - intros items. subst handler. unfold collect_corrections. simpl.
    destruct (getPythonCommand execSync) as [pythonCmd|] eqn:Hcmd.
    + eexists. split; [reflexivity|]. split; [discriminate|].
      intros p [= <-]. simpl. split; [reflexivity|].
      split.
      * intros [= H]. apply bool_decide_eq_true in H. exact H.
      * intros H. rewrite bool_decide_eq_true_2 by exact H. reflexivity.
    + eexists. split; [reflexivity|]. split; [reflexivity|]. discriminate.
  - intros Hcollect Hcf Hne Hw.
    rewrite (ReviewFacts.saveCorrectionReview_selected env st cf Hcf Hne), Hw.
    rewrite Hcollect. subst handler. unfold collect_corrections.
    destruct (getPythonCommand execSync); reflexivity.
Qed.

End Main.

(** X15. The Upstage key of the environment wins over the stored one: while
    [UPSTAGE_API_KEY] is set, saving a key is refused and leaves the
    settings alone, and the key handed out is the one of the environment
    whatever is stored; while it is not set, a saved key is the key handed
    out afterwards, and the other settings are untouched. *)
Theorem upstage_key_environment_first
  (UPSTAGE_API_KEY : option string) (key : string)
  (store : gmap string json) :
  (forall v, UPSTAGE_API_KEY = Some v -> v <> "" ->
     snd (save_upstage_key UPSTAGE_API_KEY key store) = store /\
     get "success" (fst (save_upstage_key UPSTAGE_API_KEY key store)) =
       Some (JBool false) /\
     get_upstage_key UPSTAGE_API_KEY
       (snd (save_upstage_key UPSTAGE_API_KEY key store)) = JString v) /\
  (Js.truthy UPSTAGE_API_KEY = false ->
     get "success" (fst (save_upstage_key UPSTAGE_API_KEY key store)) =
       Some (JBool true) /\
     get_upstage_key UPSTAGE_API_KEY
       (snd (save_upstage_key UPSTAGE_API_KEY key store)) = JString key /\
     forall k, k <> "upstageKey" ->
       snd (save_upstage_key UPSTAGE_API_KEY key store) !! k = store !! k).
Proof.
  split.
  - intros v -> Hv. unfold save_upstage_key, get_upstage_key. simpl.
    destruct (String.eqb_spec v ""); [contradiction|]. simpl. auto.
  - intros Hf. unfold save_upstage_key, get_upstage_key. rewrite Hf. simpl.
    split; [reflexivity|]. split.
    + assert (Hget : store_get (store_set store "upstageKey" (JString key))
                       "upstageKey" (JString "") = JString key).
      { unfold store_get, store_set. rewrite lookup_insert_eq. reflexivity. }
      destruct UPSTAGE_API_KEY as [v|]; [|exact Hget].
      simpl in Hf. destruct (String.eqb v ""); [exact Hget | discriminate].
    + intros k Hk. unfold store_set. apply lookup_insert_ne. congruence.
Qed.

Lemma getPythonCommand_first_match_witness :
  reports_python3 python3_only "python3" /\
  getPythonCommand python3_only = Some "python3".
Proof.
  assert (H : reports_python3 python3_only "python3").
  { exists "Python 3.11.4". split; reflexivity. }
  split; [exact H|].
  apply (getPythonCommand_first_match python3_only "python3"). exact H.
Defined.

Lemma credit_handlers_fail_closed_witness :
  get "is_admin"
    (get_credit_balance no_python garbled_stdout strict_parse "/engine"
       sample_join) = Some (JBool false) /\
  get "is_admin"
    (get_credit_balance python3_only garbled_stdout strict_parse "/engine"
       sample_join) = Some (JBool false).
Proof.
  split.
  - destruct (proj1 (credit_handlers_fail_closed no_python garbled_stdout
                       strict_parse "/engine" sample_join "basic") eq_refl)
      as (_ & H & _). exact H.
  - destruct (proj2 (credit_handlers_fail_closed python3_only garbled_stdout
                       strict_parse "/engine" sample_join "basic")
                "python3" eq_refl) as (_ & H & _).
    + intros args. reflexivity.
    + exact H.
Defined.


Lemma collect_corrections_never_rejects_witness :
  Review.saveCorrectionReview sample_collect_env Review.sample_decided =
  [Review.EWriteJsonFile (Review.reviewPath sample_collect_env "a.html")
     (Review.review_record sample_collect_env Review.sample_decided "a.html");
   Review.ECollectCorrections (Review.to_learn Review.sample_decided "a.html");
   Review.ELogCollected 2] ++ Review.save_reported.
Proof.
  pose proof (collect_corrections_never_rejects no_python failing_exit
                "/engine" sample_join (fun _ => "[...]")
                sample_collect_env Review.sample_decided "a.html") as H.
  cbv zeta in H. destruct H as [_ H].
  rewrite H; [reflexivity | | reflexivity | discriminate | reflexivity].
  intros items. reflexivity.
Defined.

Lemma upstage_key_environment_first_witness :
  get_upstage_key (Some "up_env")
    (snd (save_upstage_key (Some "up_env") "up_user" ∅)) = JString "up_env" /\
  get_upstage_key None (snd (save_upstage_key None "up_user" ∅)) =
    JString "up_user".
Proof.
  split.
  - destruct (proj1 (upstage_key_environment_first (Some "up_env") "up_user" ∅)
                "up_env" eq_refl ltac:(discriminate)) as (_ & _ & H). exact H.
  - destruct (proj2 (upstage_key_environment_first None "up_user" ∅) eq_refl)
      as (_ & H & _). exact H.
Defined.

End HandlersFacts.

(** ** More of the schema *)

Module SchemaFacts.
Import PatternStore Schema PatternFacts.

Lemma conflicts_iff (row : error_pattern) (t : list error_pattern) :
  conflicts row t = true <-> triple row ∈ triple <$> t.
Proof. unfold conflicts. apply existsb_same_triple. Qed.

Lemma insert_do_nothing_prefix (row : error_pattern) (t : list error_pattern) :
  exists added, insert_on_conflict_do_nothing row t = t ++ added.
Proof.
  unfold insert_on_conflict_do_nothing. destruct (conflicts row t).
  - exists []. symmetry. apply app_nil_r.
  - exists [row]. reflexivity.
Qed.

Lemma insert_all_prefix (rows t : list error_pattern) :
  exists added, insert_all_on_conflict_do_nothing rows t = t ++ added.
Proof.
  revert t. induction rows as [|row rows IH]; intros t; simpl.
  - exists []. symmetry. apply app_nil_r.
  - destruct (insert_do_nothing_prefix row t) as [a1 H1].
    destruct (IH (insert_on_conflict_do_nothing row t)) as [a2 H2].
    exists (a1 ++ a2). unfold insert_all_on_conflict_do_nothing in *.
    rewrite H2, H1, app_assoc. reflexivity.
Qed.

Lemma conflicts_app_l (row : error_pattern) (t added : list error_pattern) :
  conflicts row t = true -> conflicts row (t ++ added) = true.
Proof.
  unfold conflicts. intros H. rewrite existsb_app, H. reflexivity.
Qed.

Lemma conflicts_after_insert (row : error_pattern) (t : list error_pattern) :
  conflicts row (insert_on_conflict_do_nothing row t) = true.
Proof.
  unfold insert_on_conflict_do_nothing. destruct (conflicts row t) eqn:Hc;
    [exact Hc|].
  unfold conflicts. rewrite existsb_app. simpl.
  assert (Hs : same_triple (original row) (corrected row) (source row) row
               = true) by (apply same_triple_iff; reflexivity).
  rewrite Hs, orb_true_r. reflexivity.
Qed.

Lemma insert_all_keeps_conflict (rows t : list error_pattern)
  (row : error_pattern) :
  conflicts row t = true ->
  conflicts row (insert_all_on_conflict_do_nothing rows t) = true.
Proof.
  intros H. destruct (insert_all_prefix rows t) as [added ->].
  apply conflicts_app_l. exact H.
Qed.

Lemma insert_all_conflicts (rows t : list error_pattern) (row : error_pattern) :
  row ∈ rows ->
  conflicts row (insert_all_on_conflict_do_nothing rows t) = true.
Proof.
  revert t. induction rows as [|r rows IH]; intros t Hin.
  - apply elem_of_nil in Hin. contradiction.
  - apply elem_of_cons in Hin. destruct Hin as [->|Hin].
    + apply (insert_all_keeps_conflict rows). apply conflicts_after_insert.
    + apply (IH (insert_on_conflict_do_nothing r t)). exact Hin.
Qed.

Lemma insert_all_noop (rows t : list error_pattern) :
  (forall row, row ∈ rows -> conflicts row t = true) ->
  insert_all_on_conflict_do_nothing rows t = t.
Proof.
  induction rows as [|r rows IH]; intros H; [reflexivity|].
  simpl. unfold insert_on_conflict_do_nothing at 1.
  rewrite (H r (list_elem_of_here _ _)). apply IH.
  intros row Hrow. apply H. apply list_elem_of_further. exact Hrow.
Qed.

Lemma insert_all_unique (rows t : list error_pattern) :
  idx_patterns_unique t ->
  idx_patterns_unique (insert_all_on_conflict_do_nothing rows t).
Proof.
  revert t. induction rows as [|r rows IH]; intros t H; [exact H|].
  apply (IH (insert_on_conflict_do_nothing r t)).
  unfold insert_on_conflict_do_nothing. destruct (conflicts r t) eqn:Hc;
    [exact H|].
  apply NoDup_triples_snoc; [exact H|]. apply conflicts_false. exact Hc.
Qed.

(** X16. The sample rows are inserted with ON CONFLICT DO NOTHING, so the
    statement can be run again: the rows that were in the table stay where
    and as they are (no frequency is raised), afterwards every key of the
    statement is in the table, the unique index keeps holding, and running
    the statement a second time changes nothing. *)
Theorem seed_insert_can_be_rerun (rows t : list error_pattern) :
  let t' := insert_all_on_conflict_do_nothing rows t in
  (forall i p, t !! i = Some p -> t' !! i = Some p) /\
  (forall row, row ∈ rows -> triple row ∈ triple <$> t') /\
  (idx_patterns_unique t -> idx_patterns_unique t') /\
  insert_all_on_conflict_do_nothing rows t' = t'.
Proof.
  intros t'. subst t'. split; [|split; [|split]].
  - intros i p Hi. destruct (insert_all_prefix rows t) as [added ->].
    apply lookup_app_l_Some. exact Hi.
  - intros row Hrow. apply conflicts_iff. apply insert_all_conflicts.
    exact Hrow.
  - apply insert_all_unique.
  - apply insert_all_noop. intros row Hrow. apply insert_all_conflicts.
    exact Hrow.
Qed.

Lemma seed_insert_can_be_rerun_witness :
  let t := insert_all_on_conflict_do_nothing (sample_rows 0) [] in
  length t = 6 /\ idx_patterns_unique t /\
  insert_all_on_conflict_do_nothing (sample_rows 5) t = t /\
  frequency <$> t = [1; 1; 1; 1; 1; 1]%Z.
Proof.
  intros t. split; [reflexivity|].
  destruct (seed_insert_can_be_rerun (sample_rows 0) []) as (_ & _ & Hu & _).
  split; [apply Hu; constructor|].
  split; [reflexivity | reflexivity].
Defined.

(** A plain INSERT is refused by the unique index exactly when the key
    of the row is in the table; an accepted row is appended, and from then
    on every row with its key is refused. *)
Theorem insert_refuses_present_key
  (row : error_pattern) (t : list error_pattern) :
  (insert row t = None <-> triple row ∈ triple <$> t) /\
  (forall t', insert row t = Some t' ->
     t' = t ++ [row] /\
     forall row', triple row' = triple row -> insert row' t' = None).
Proof.
  unfold insert. split.
  - rewrite <- conflicts_iff. destruct (conflicts row t); split;
      intros; congruence.
  - intros t' H. destruct (conflicts row t) eqn:Hc; [discriminate|].
    injection H as <-. split; [reflexivity|].
    intros row' Hkey.
    assert (Hc' : conflicts row' (t ++ [row]) = true).
    { apply conflicts_iff. rewrite Hkey, fmap_app. apply elem_of_app.
      right. simpl. apply list_elem_of_here. }
    rewrite Hc'. reflexivity.
Qed.

Lemma insert_refuses_present_key_witness :
  let first := new_pattern 1 0 "Z" "a" "image_pdf" None None in
  let again := new_pattern 2 9 "Z" "a" "image_pdf" (Some "ocr") None in
  insert first [] = Some [first] /\ insert again [first] = None.
Proof.
  intros first again. split; [reflexivity|].
  destruct (proj2 (insert_refuses_present_key first []) [first] eq_refl)
    as [_ H].
  apply H. reflexivity.
Defined.

(** *** The daily statistics *)

Lemma length_filter_disjoint {A} (P Q : A -> Prop)
  `{!forall x, Decision (P x)} `{!forall x, Decision (Q x)} (l : list A) :
  (forall x, P x -> Q x -> False) ->
  length (filter P l) + length (filter Q l) <= length l.
Proof.
  intros Hdis. induction l as [|x l IH]; [reflexivity|].
  rewrite !filter_cons.
  destruct (decide (P x)) as [HP|HP], (decide (Q x)) as [HQ|HQ]; simpl;
    try lia.
  exfalso. exact (Hdis x HP HQ).
Qed.

Lemma length_remove_dups_le `{EqDecision A} (l : list A) :
  length (remove_dups l) <= length l.
Proof.
  induction l as [|x l IH]; simpl; [lia|].
  destruct (decide_rel elem_of x l); simpl; lia.
Qed.

Lemma length_omap_le {A B} (f : A -> option B) (l : list A) :
  length (omap f l) <= length l.
Proof.
  induction l as [|x l IH]; csimpl; [lia|]. destruct (f x); csimpl; lia.
Qed.

Lemma sum_total_Permutation (l k : list stats_row) :
  l ≡ₚ k -> sum_total l = sum_total k.
Proof.
  induction 1 as [|x l k _ IH|x y l|l k m _ IH1 _ IH2]; simpl;
    unfold sum_total in *; simpl; lia.
Qed.

Section WithDate.

Variable DATE : Z -> Z.

Lemma total_cons (key : option Z * string) (c : conversion)
  (t : list conversion) :
  total_conversions (stats_of DATE key (c :: t)) =
  ((if decide (group_key DATE c = key) then 1 else 0) +
   total_conversions (stats_of DATE key t))%Z.
Proof.
  unfold stats_of, group_of. simpl. rewrite filter_cons.
  destruct (decide (group_key DATE c = key)); simpl length; lia.
Qed.

Lemma sum_total_nil (keys : list (option Z * string)) :
  sum_total ((fun key => stats_of DATE key []) <$> keys) = 0%Z.
Proof.
  induction keys as [|k keys IH]; [reflexivity|].
  change (sum_total ((fun key => stats_of DATE key []) <$> k :: keys))
    with (total_conversions (stats_of DATE k []) +
          sum_total ((fun key => stats_of DATE key []) <$> keys))%Z.
  rewrite IH. reflexivity.
Qed.

Lemma sum_total_cons (keys : list (option Z * string)) (c : conversion)
  (t : list conversion) :
  NoDup keys ->
  sum_total ((fun key => stats_of DATE key (c :: t)) <$> keys) =
  ((if decide (group_key DATE c ∈ keys) then 1 else 0) +
   sum_total ((fun key => stats_of DATE key t) <$> keys))%Z.
Proof.
  induction 1 as [|k keys Hk Hnd IH].
  - destruct (decide (group_key DATE c ∈ [])) as [H|_];
      [apply elem_of_nil in H; contradiction | reflexivity].
  - change (sum_total ((fun key => stats_of DATE key (c :: t)) <$> k :: keys))
      with (total_conversions (stats_of DATE k (c :: t)) +
            sum_total ((fun key => stats_of DATE key (c :: t)) <$> keys))%Z.
    change (sum_total ((fun key => stats_of DATE key t) <$> k :: keys))
      with (total_conversions (stats_of DATE k t) +
            sum_total ((fun key => stats_of DATE key t) <$> keys))%Z.
    rewrite IH, total_cons.
    destruct (decide (group_key DATE c = k)) as [Heq|Hne].
    + subst k. rewrite (decide_False (P := group_key DATE c ∈ keys)) by exact Hk.
      rewrite decide_True by apply list_elem_of_here. lia.
    + destruct (decide (group_key DATE c ∈ keys)) as [Hin|Hnin].
      * rewrite decide_True by (apply list_elem_of_further; exact Hin). lia.
      * rewrite decide_False; [lia|].
        intros Hin. apply elem_of_cons in Hin. destruct Hin; congruence.
Qed.

Lemma sum_total_groups (keys : list (option Z * string))
  (t : list conversion) :
  NoDup keys -> (forall c, c ∈ t -> group_key DATE c ∈ keys) ->
  sum_total ((fun key => stats_of DATE key t) <$> keys) =
  Z.of_nat (length t).
Proof.
  intros Hnd. induction t as [|c t IH]; intros Hkeys.
  - apply sum_total_nil.
  - rewrite (sum_total_cons keys c t Hnd).
    rewrite decide_True by (apply Hkeys; apply list_elem_of_here).
    rewrite IH by (intros c' Hc'; apply Hkeys; apply list_elem_of_further;
                   exact Hc').
    simpl length. lia.
Qed.

#[global] Instance date_desc_total : Total date_desc.
Proof.
  intros a b. unfold date_desc.
  destruct (stat_date a), (stat_date b); try tauto. lia.
Qed.

#[global] Instance date_desc_trans : Transitive date_desc.
Proof.
  intros a b c. unfold date_desc.
  destruct (stat_date a), (stat_date b), (stat_date c); try tauto. lia.
Qed.

(** X17. The daily statistics account for every conversion exactly once:
    the totals of the rows of the view add up to the number of
    conversions, no (day, file type) pair has two rows, the rows come by
    descending day, and in every row at least one conversion is counted,
    completed and failed ones together are not more than the total (a
    conversion in another state, or without one, is in neither), and the
    distinct users are not more than the conversions. *)
Theorem daily_conversion_stats_accounts (t : list conversion) :
  let view := daily_conversion_stats DATE t in
  sum_total view = Z.of_nat (length t) /\
  NoDup ((fun r => (stat_date r, s_file_type r)) <$> view) /\
  StronglySorted date_desc view /\
  forall row, row ∈ view ->
    (1 <= total_conversions row)%Z /\
    (0 <= completed row)%Z /\ (0 <= failed row)%Z /\
    (completed row + failed row <= total_conversions row)%Z /\
    (0 <= unique_users row <= total_conversions row)%Z.
Proof.
  intros view. subst view. unfold daily_conversion_stats.
  split; [|split; [|split]].
  - rewrite (sum_total_Permutation _ _ (merge_sort_Permutation _ _)).
    apply sum_total_groups.
    + apply NoDup_remove_dups.
    + intros c Hc. unfold group_keys. apply elem_of_remove_dups.
      apply list_elem_of_fmap. exists c. auto.
  - rewrite merge_sort_Permutation, <- list_fmap_compose.
    rewrite (list_fmap_ext _ (fun key => key) (group_keys DATE t)).
    + rewrite list_fmap_id. apply NoDup_remove_dups.
    + intros i [d f] _. reflexivity.
  - apply StronglySorted_merge_sort; apply _.
  - intros row Hrow. rewrite merge_sort_Permutation in Hrow.
    apply list_elem_of_fmap in Hrow. destruct Hrow as (key & -> & Hkey).
    unfold group_keys in Hkey. rewrite elem_of_remove_dups in Hkey.
    apply list_elem_of_fmap in Hkey. destruct Hkey as (c & Hc & Hin).
    unfold stats_of. cbn [total_conversions completed failed unique_users].
    unfold count_status, count_distinct_users.
    assert (Hne : 1 <= length (group_of DATE key t)).
    { assert (Hcin : c ∈ group_of DATE key t).
      { unfold group_of. apply list_elem_of_filter. split; [congruence|exact Hin]. }
      destruct (group_of DATE key t); [apply elem_of_nil in Hcin; contradiction|].
      simpl. lia. }
    pose proof (length_filter_disjoint
                  (fun c => status c = Some "completed")
                  (fun c => status c = Some "failed")
                  (group_of DATE key t)) as Hdis.
    pose proof (length_remove_dups_le (omap user_id (group_of DATE key t))).
    pose proof (length_omap_le user_id (group_of DATE key t)).
    split; [lia|]. split; [lia|]. split; [lia|]. split; [|lia].
    assert (length (filter (fun c => status c = Some "completed")
                      (group_of DATE key t)) +
            length (filter (fun c => status c = Some "failed")
                      (group_of DATE key t)) <= length (group_of DATE key t)).
    { apply Hdis. intros x H1 H2. rewrite H1 in H2. discriminate. }
    lia.
Qed.

End WithDate.

Lemma daily_conversion_stats_accounts_witness :
  let view := daily_conversion_stats (fun day => day) sample_conversions in
  total_conversions <$> view = [1; 2; 1]%Z /\
  completed <$> view = [0; 1; 1]%Z /\
  unique_users <$> view = [1; 1; 0]%Z /\
  sum_total view = 4%Z.
Proof.
  intros view. split; [reflexivity|]. split; [reflexivity|].
  split; [reflexivity|].
  apply (daily_conversion_stats_accounts (fun day => day) sample_conversions).
Defined.

End SchemaFacts.

(** ** The engine snippets of the design document *)

Module EngineFacts.
Import Classifier WorkerPool.

(** X18. The pool never has more than 32 workers and, for a machine that
    reports a number of CPUs, never fewer than 2: it has two workers per
    CPU up to 16 CPUs and 32 from there on, and 8 when the number of CPUs
    is unknown or reported as 0. *)
Theorem MAX_WORKERS_bounds (cpu_count : option Z) :
  (MAX_WORKERS cpu_count <= 32)%Z /\
  (forall c, cpu_count = Some c -> (0 <= c)%Z ->
     (2 <= MAX_WORKERS cpu_count)%Z) /\
  (forall c, cpu_count = Some c -> (1 <= c <= 16)%Z ->
     MAX_WORKERS cpu_count = (2 * c)%Z) /\
  (forall c, cpu_count = Some c -> (16 <= c)%Z ->
     MAX_WORKERS cpu_count = 32%Z) /\
  (cpu_count = None \/ cpu_count = Some 0%Z -> MAX_WORKERS cpu_count = 8%Z).
Proof.
  unfold MAX_WORKERS. split; [lia|]. split; [|split; [|split]].
  - intros c -> Hc. destruct (Z.eqb_spec c 0); lia.
  - intros c -> Hc. destruct (Z.eqb_spec c 0); lia.
  - intros c -> Hc. destruct (Z.eqb_spec c 0); lia.
  - intros [-> | ->]; reflexivity.
Qed.

Lemma MAX_WORKERS_bounds_witness :
  MAX_WORKERS (Some 6%Z) = 12%Z /\ MAX_WORKERS (Some 64%Z) = 32%Z /\
  MAX_WORKERS None = 8%Z.
Proof.
  split; [|split].
  - destruct (MAX_WORKERS_bounds (Some 6%Z)) as (_ & _ & H & _).
    apply (H 6%Z eq_refl). lia.
  - destruct (MAX_WORKERS_bounds (Some 64%Z)) as (_ & _ & _ & H & _).
    apply (H 64%Z eq_refl). lia.
  - destruct (MAX_WORKERS_bounds None) as (_ & _ & _ & _ & H).
    apply H. left. reflexivity.
Defined.

Lemma sum_nat_zero (l : list nat) :
  Forall (fun n => n = 0) l -> sum_nat l = 0.
Proof. induction 1 as [|n l -> _ IH]; [reflexivity | exact IH]. Qed.

Lemma sum_nat_lookup (l : list nat) (i n : nat) :
  l !! i = Some n -> n <= sum_nat l.
Proof.
  revert i. induction l as [|m l IH]; intros [|i] H; try discriminate.
  - injection H as ->. unfold sum_nat. simpl. lia.
  - specialize (IH i H). unfold sum_nat in *. simpl. lia.
Qed.

(** X19. A PDF without pages, or whose first three pages yield no text, is
    not digital and goes the remote way as an image PDF; a PDF with more
    than 100 characters on one of its first three pages is digital
    whatever the other pages hold. *)
Theorem analyze_pdf_edges (pages : list (option string)) :
  (Forall (fun page => page_text page = "") (take 3 pages) ->
     _analyze_pdf pages = false /\ classify_pdf pages = (image_pdf, remote)) /\
  (forall i page, i < 3 -> pages !! i = Some page ->
     100 < String.length (page_text page) ->
     _analyze_pdf pages = true /\ classify_pdf pages = (digital_pdf, local)).
Proof.
  split.
  - intros H.
    assert (Ha : _analyze_pdf pages = false).
    { unfold _analyze_pdf. cbv zeta. rewrite sum_nat_zero; [reflexivity|].
      apply Forall_fmap. eapply Forall_impl; [exact H|].
      intros page Hp. simpl. rewrite Hp. reflexivity. }
    split; [exact Ha|]. unfold classify_pdf. rewrite Ha. reflexivity.
  - intros i page Hi Hpage Hlen.
    assert (Ha : _analyze_pdf pages = true).
    { unfold _analyze_pdf. cbv zeta. apply Nat.ltb_lt.
      eapply Nat.lt_le_trans; [exact Hlen|].
      apply (sum_nat_lookup _ i).
      rewrite list_lookup_fmap, lookup_take_lt by exact Hi.
      rewrite Hpage. reflexivity. }
    split; [exact Ha|]. unfold classify_pdf. rewrite Ha. reflexivity.
Qed.

Lemma analyze_pdf_edges_witness :
  classify_pdf [] = (image_pdf, remote) /\
  classify_pdf [None; Some ""; None; sample_page 400] = (image_pdf, remote) /\
  classify_pdf [None; sample_page 101] = (digital_pdf, local).
Proof.
  split; [|split].
  - apply (analyze_pdf_edges []). constructor.
  - apply (proj1 (analyze_pdf_edges [None; Some ""; None; sample_page 400])).
    repeat constructor.
  - apply (proj2 (analyze_pdf_edges [None; sample_page 101])
             1 (sample_page 101)); [lia | reflexivity | vm_compute; lia].
Defined.

End EngineFacts.
